(** * BeanFlow video generator: a shallow embedding of
      [beanflow_video_generator.py] and the properties of its pipeline.

    The program is a linear pipeline over third-party services.  The
    embedding keeps the program's own control flow (guards, [try]/[except]
    blocks, loops over the fixed beat lists, duration arithmetic) and takes
    the services it calls (HTTP, the file system, Pillow, moviepy, gTTS,
    [textwrap]) as operations on an abstract outside world.

    Durations and the two font-size products are Python floats in the
    source; here they are rationals ([Q]), so every statement about them is
    one of exact arithmetic.  Strings are sequences of code points below
    256.  Console output, the allocation of the image and the encoder
    settings of the export take no part in any statement and are left
    out. *)

From Stdlib Require Import String Ascii List ZArith QArith Lia Bool.
From Stdlib Require Import DecimalString DecimalNat.
Import ListNotations.

Local Open Scope string_scope.

(** ** Python strings *)

Module PyStr.

(** [s.split(sep)] for a one-character separator: as many pieces as
    separators plus one, never an empty list. *)
Fixpoint split (sep : ascii) (s : string) : list string :=
  match s with
  | EmptyString => [EmptyString]
  | String c s' =>
      if Ascii.eqb c sep then EmptyString :: split sep s'
      else match split sep s' with
           | [] => [String c EmptyString]
           | piece :: pieces => String c piece :: pieces
           end
  end.

(** [sep.join(pieces)]. *)
Fixpoint join (sep : string) (pieces : list string) : string :=
  match pieces with
  | [] => EmptyString
  | [p] => p
  | p :: rest => p ++ sep ++ join sep rest
  end.

(** [c.isspace()] on code points below 256. *)
Definition isspace (c : ascii) : bool :=
  let n := nat_of_ascii c in
  ((9 <=? n) && (n <=? 13) || (28 <=? n) && (n <=? 32)
   || (n =? 133) || (n =? 160))%nat.

Fixpoint lstrip (s : string) : string :=
  match s with
  | EmptyString => EmptyString
  | String c s' => if isspace c then lstrip s' else s
  end.

Fixpoint rstrip (s : string) : string :=
  match s with
  | EmptyString => EmptyString
  | String c s' =>
      match rstrip s' with
      | EmptyString => if isspace c then EmptyString else String c EmptyString
      | r => String c r
      end
  end.

(** [s.strip()]. *)
Definition strip (s : string) : string := rstrip (lstrip s).

(** Truth value of a string: non-empty. *)
Definition truthy (s : string) : bool :=
  match s with EmptyString => false | _ => true end.

Definition islower (c : ascii) : bool :=
  let n := nat_of_ascii c in ((97 <=? n) && (n <=? 122))%nat.

Definition isupper (c : ascii) : bool :=
  let n := nat_of_ascii c in ((65 <=? n) && (n <=? 90))%nat.

Definition upper (c : ascii) : ascii :=
  if islower c then ascii_of_nat (nat_of_ascii c - 32) else c.

Definition lower (c : ascii) : ascii :=
  if isupper c then ascii_of_nat (nat_of_ascii c + 32) else c.

(** [s.title()] on ASCII text: a cased character is upper-cased when the
    character before it is not cased and lower-cased otherwise. *)
Fixpoint title_from (previous_is_cased : bool) (s : string) : string :=
  match s with
  | EmptyString => EmptyString
  | String c s' =>
      if islower c then
        String (if previous_is_cased then c else upper c) (title_from true s')
      else if isupper c then
        String (if previous_is_cased then lower c else c) (title_from true s')
      else String c (title_from false s')
  end.

Definition title (s : string) : string := title_from false s.

(** [len(s)] as a Python integer. *)
Definition len (s : string) : Z := Z.of_nat (String.length s).

(** [str(i)] for a non-negative index. *)
Definition of_nat (i : nat) : string :=
  NilEmpty.string_of_uint (Nat.to_uint i).

End PyStr.

Definition newline : ascii := "010"%char.

(** The one-character string ["\n"]. *)
Definition nl : string := String newline EmptyString.

(** ** Exceptions and effects *)

(** The exceptions the modelled calls raise.  All of them derive from
    Python's [Exception], so both [except Exception] and a bare [except]
    catch every one of them. *)
Inductive exn : Type :=
| KeyError (key : string)
| IndexError
| ValueError (message : string)
| ZeroDivisionError
| AttributeError
| HTTPError (status : Z)
| RequestException
| JSONDecodeError
| OSError.

Inductive result (A : Type) : Type :=
| Ok (a : A)
| Raise (e : exn).

Arguments Ok {A} a.
Arguments Raise {A} e.

Definition result_bind {A B} (r : result A) (k : A -> result B) : result B :=
  match r with
  | Ok a => k a
  | Raise e => Raise e
  end.

Definition is_ok {A} (r : result A) : bool :=
  match r with Ok _ => true | Raise _ => false end.

(** Computations that act on the outside world and may raise.  A raised
    exception keeps the effects made before it. *)
Definition M (World A : Type) : Type := World -> result A * World.

Definition ret {W A} (a : A) : M W A := fun w => (Ok a, w).

Definition bind {W A B} (c : M W A) (k : A -> M W B) : M W B :=
  fun w =>
    match c w with
    | (Ok a, w') => k a w'
    | (Raise e, w') => (Raise e, w')
    end.

(** [try: body except Exception: handler]. *)
Definition try_except {W A} (body : M W A) (handler : exn -> M W A) : M W A :=
  fun w =>
    match body w with
    | (Ok a, w') => (Ok a, w')
    | (Raise e, w') => handler e w'
    end.

(** [try: body finally: cleanup], the shape of a [with] block's exit. *)
Definition try_finally {W A} (body : M W A) (cleanup : M W unit) : M W A :=
  fun w =>
    match body w with
    | (r, w') =>
        match cleanup w' with
        | (Ok _, w'') => (r, w'')
        | (Raise e, w'') => (Raise e, w'')
        end
    end.

Definition lift {W A} (r : result A) : M W A := fun w => (r, w).

Declare Scope py_scope.
Delimit Scope py_scope with py.
Notation "x <- c ;; k" := (bind c (fun x => k))
  (at level 61, c at next level, right associativity) : py_scope.
Notation "c ;; k" := (bind c (fun _ => k))
  (at level 61, right associativity) : py_scope.

(** [for x in items: body(x)], stopping at the first exception. *)
Fixpoint for_each {W A} (body : A -> M W unit) (items : list A) : M W unit :=
  match items with
  | [] => ret tt
  | x :: rest => bind (body x) (fun _ => for_each body rest)
  end.

(** [for i, x in enumerate(items)], collecting what each round appends. *)
Fixpoint for_enumerate {W A B} (body : nat -> A -> M W B) (i : nat)
    (items : list A) : M W (list B) :=
  match items with
  | [] => ret []
  | x :: rest =>
      bind (body i x) (fun b =>
      bind (for_enumerate body (S i) rest) (fun bs => ret (b :: bs)))
  end.

(** ** Data of the stock-footage provider *)

(** One file variant of a video entry.  A field read with [.get] may be
    absent; ["link"] is read with a subscript, so its absence is a
    [KeyError]. *)
Record video_file : Type := {
  vf_quality : option string;
  vf_link : option string
}.

(** One video entry of the search response. *)
Record video : Type := {
  video_files : option (list video_file)
}.

(** The decoded body of a search response: a JSON object, with or without
    a ["videos"] member, or a JSON value of another kind. *)
Inductive json : Type :=
| JObject (videos : option (list video))
| JOther.

Inductive param : Type :=
| PStr (s : string)
| PInt (n : Z).

Record request : Type := {
  req_url : string;
  req_headers : list (string * string);
  req_params : list (string * param);
  req_stream : bool
}.

Definition chunk : Type := list Byte.byte.

(** What [requests.get] hands back: the status line, the outcome of
    decoding the body as JSON, and the body as the chunks that
    [iter_content] yields, each of which may instead be a transport error
    raised at that point of the stream. *)
Record response : Type := {
  status_code : Z;
  json_body : result json;
  body_chunks : list (result chunk)
}.

(** [response.raise_for_status()]. *)
Definition raise_for_status (r : response) : result unit :=
  if (400 <=? status_code r)%Z && (status_code r <? 600)%Z
  then Raise (HTTPError (status_code r))
  else Ok tt.

(** [data.get("videos", [])]; on a value that is no object the attribute
    lookup fails. *)
Definition get_videos (data : json) : result (list video) :=
  match data with
  | JObject (Some vs) => Ok vs
  | JObject None => Ok []
  | JOther => Raise AttributeError
  end.

(** ** The generator object *)

Record generator : Type := {
  output_dir : string;
  pexels_api_key : option string
}.

Definition set_pexels_api_key (self : generator) (api_key : string) : generator :=
  {| output_dir := output_dir self; pexels_api_key := Some api_key |}.

(** Truth value of [self.pexels_api_key]: [None] and [""] are false. *)
Definition key_truthy (key : option string) : bool :=
  match key with
  | None => false
  | Some k => PyStr.truthy k
  end.

(** [self.output_dir / filename]. *)
Definition path_join (dir filename : string) : string :=
  dir ++ "/" ++ filename.

(** ** Slides, segments and the visual track *)

(** A font object: a TrueType face opened from a file at a size, or
    Pillow's built-in bitmap font ([ImageFont.load_default()]). *)
Inductive font : Type :=
| TrueTypeFont (path : string) (size : Z)
| DefaultFont.

Definition rgb : Type := (Z * Z * Z)%type.

(** One [draw.text((x, y), line, fill=color, font=font)] call. *)
Record text_op : Type := {
  op_x : Z;
  op_y : Z;
  op_line : string
}.

(** The image a slide holds and the time it is held for:
    [ImageClip(np.array(img), duration=duration)]. *)
Record slide : Type := {
  slide_size : Z * Z;
  slide_bg : rgb;
  slide_color : rgb;
  slide_font : font;
  slide_ops : list text_op;
  slide_duration : Q
}.

(** A visual segment: a slide, a file clip looped to a duration
    ([VideoFileClip(path).loop(duration=d)]) or a file clip cut to a window
    ([VideoFileClip(path).subclip(t_start, t_end)]).  [source_duration] is
    the duration moviepy read from the file. *)
Inductive segment : Type :=
| SlideClip (s : slide)
| LoopClip (path : string) (source_duration : Q) (duration : Q)
| SubClip (path : string) (source_duration : Q) (t_start t_end : Q).

(** Duration of a segment under moviepy's contract for non-negative times:
    a looped clip lasts the requested duration and a sub-clip lasts
    [t_end - t_start]. *)
Definition seg_duration (c : segment) : Q :=
  match c with
  | SlideClip s => slide_duration s
  | LoopClip _ _ d => d
  | SubClip _ _ t_start t_end => t_end - t_start
  end.

(** [concatenate_videoclips(clips, method="compose")] plays the clips one
    after the other: its duration is the sum of theirs. *)
Definition track_duration (clips : list segment) : Q :=
  fold_right (fun c acc => seg_duration c + acc) 0 clips.

Record audio_clip : Type := {
  audio_path : string;
  audio_duration : Q
}.

(** [concatenate_videoclips(clips).set_audio(audio)]. *)
Record final_video : Type := {
  video_track : list segment;
  video_audio : audio_clip
}.

(** [int(x)] on a float: truncation toward zero. *)
Definition int_of_Q (x : Q) : Z := Z.quot (Qnum x) (Zpos (Qden x)).

(** ** Concrete outside worlds

    Worlds in which the statements below are exercised: the world is the
    number of library calls made so far, and every library call is given a
    fixed outcome. *)

Module Scenario.

Definition World : Type := nat.

Definition step {A} (r : result A) : M World A :=
  fun calls => (r, S calls).

(** Fonts: installed, or absent as on a machine without the macOS
    fonts. *)
Definition fonts_installed (path : string) (size : Z) : M World unit :=
  step (Ok tt).

Definition fonts_missing (path : string) (size : Z) : M World unit :=
  step (Raise OSError).

(** A fixed-pitch measurement of a line. *)
Definition bbox (f : font) (line : string) : Z * Z * Z * Z :=
  match f with
  | TrueTypeFont _ size => (0, 0, PyStr.len line * (size * 6 / 10), size)%Z
  | DefaultFont => (0, 0, PyStr.len line * 6, 11)%Z
  end.

(** A greedy word wrapper that stands for [textwrap.fill]: words are
    the maximal runs without white space, a word longer than the width is
    cut into pieces of the width, and a line takes pieces, one space
    apart, while they fit. *)
Definition cons_head (c : ascii) (pieces : list string) : list string :=
  match pieces with
  | [] => [String c EmptyString]
  | piece :: rest => String c piece :: rest
  end.

Fixpoint fields (text : string) : list string :=
  match text with
  | EmptyString => [EmptyString]
  | String c rest =>
      if PyStr.isspace c then EmptyString :: fields rest
      else cons_head c (fields rest)
  end.

Definition words (text : string) : list string :=
  filter PyStr.truthy (fields text).

Fixpoint chop (width room : nat) (word : string) : list string :=
  match word with
  | EmptyString => [EmptyString]
  | String c rest =>
      match room with
      | O => EmptyString :: cons_head c (chop width (Nat.pred width) rest)
      | S room' => cons_head c (chop width room' rest)
      end
  end.

Fixpoint pack (width : nat) (current : string) (pieces : list string)
    : list string :=
  match pieces with
  | [] => [current]
  | piece :: rest =>
      if (String.length current + 1 + String.length piece <=? width)%nat
      then pack width (current ++ " " ++ piece) rest
      else current :: pack width piece rest
  end.

Definition greedy_wrap (width : nat) (text : string) : list string :=
  match flat_map (chop width width) (words text) with
  | [] => []
  | piece :: rest => pack width piece rest
  end.

Definition greedy_fill (text : string) (width : Z) : string :=
  PyStr.join nl (greedy_wrap (Z.to_nat width) text).

(** The string has no occurrence of [sep]; the string has no white
    space. *)
Fixpoint free_of (sep : ascii) (s : string) : bool :=
  match s with
  | EmptyString => true
  | String c rest => negb (Ascii.eqb c sep) && free_of sep rest
  end.

Fixpoint spaceless (s : string) : bool :=
  match s with
  | EmptyString => true
  | String c rest => negb (PyStr.isspace c) && spaceless rest
  end.

(** A line the wrapper may emit at [width]. *)
Definition fits (width : nat) (line : string) : Prop :=
  free_of newline line = true /\ (String.length line <= width)%nat.

(** The provider's catalogue: one entry with a standard and a
    high-definition variant. *)
Definition hd_file : video_file :=
  {| vf_quality := Some "hd";
     vf_link := Some "https://videos.example/hd.mp4" |}.

Definition sd_file : video_file :=
  {| vf_quality := Some "sd";
     vf_link := Some "https://videos.example/sd.mp4" |}.

Definition catalogue : list video :=
  [ {| video_files := Some [sd_file; hd_file] |} ].

(** A catalogue whose first entry has no file variants and whose second
    entry has one. *)
Definition bare_first : list video :=
  [ {| video_files := None |}; {| video_files := Some [hd_file] |} ].

(** A catalogue whose only variant has no ["link"]. *)
Definition unlinked : list video :=
  [ {| video_files := Some [ {| vf_quality := Some "hd"; vf_link := None |} ] |} ].

Definition listing (entries : list video) : response :=
  {| status_code := 200;
     json_body := Ok (JObject (Some entries));
     body_chunks := [] |}.

Definition file_body : response :=
  {| status_code := 200;
     json_body := Raise JSONDecodeError;
     body_chunks := [Ok [Byte.x00; Byte.x01]; Ok [Byte.x02]] |}.

(** A provider that answers every search with [entries] and serves every
    file. *)
Definition provider_up (entries : list video) (req : request)
    : M World response :=
  step (Ok (if req_stream req then file_body else listing entries)).

(** A provider that cannot be reached. *)
Definition provider_down (req : request) : M World response :=
  step (Raise RequestException).

(** A provider that refuses the credential. *)
Definition provider_refuses (req : request) : M World response :=
  step (Ok {| status_code := 401; json_body := Ok JOther;
              body_chunks := [] |}).

(** A provider that answers searches and breaks every download. *)
Definition provider_search_only (entries : list video) (req : request)
    : M World response :=
  if req_stream req then step (Raise RequestException)
  else step (Ok (listing entries)).

Definition disk_ok (path : string) : M World unit := step (Ok tt).

Definition write_ok (path : string) (c : chunk) : M World unit :=
  step (Ok tt).

Definition disk_full (path : string) (c : chunk) : M World unit :=
  step (Raise OSError).

Definition done_ok (path : string) : M World unit := step (Ok tt).

(** Media of fixed durations. *)
Definition lasts (seconds : Q) (path : string) : M World Q :=
  step (Ok seconds).

Definition typed (line : string) (prompt : string) : M World string :=
  step (Ok line).

Definition no_key : generator :=
  {| output_dir := "beanflow_output"; pexels_api_key := None |}.

Definition with_key : generator :=
  {| output_dir := "beanflow_output"; pexels_api_key := Some "secret" |}.

(** A disk that keeps what is written: the world is the list of the
    files, the latest version of a file first.  Opening for writing
    empties the file, a write appends to it, and writing to a file that
    was never opened fails. *)
Definition Disk : Type := list (string * list Byte.byte).

Fixpoint disk_content (d : Disk) (path : string) : option (list Byte.byte) :=
  match d with
  | [] => None
  | (name, bytes) :: older =>
      if String.eqb name path then Some bytes else disk_content older path
  end.

Definition disk_open (path : string) : M Disk unit :=
  fun d => (Ok tt, (path, []) :: d).

Definition disk_write (path : string) (c : chunk) : M Disk unit :=
  fun d =>
    match disk_content d path with
    | Some bytes => (Ok tt, (path, (bytes ++ c)%list) :: d)
    | None => (Raise OSError, d)
    end.

Definition disk_close (path : string) : M Disk unit :=
  fun d => (Ok tt, d).

(** A server that answers every request with [r]. *)
Definition serves (r : response) (req : request) : M Disk response :=
  fun d => (Ok r, d).

(** A body of three bytes in two chunks, and the same body cut off by a
    transport error after its first chunk. *)
Definition whole_body : response :=
  {| status_code := 200;
     json_body := Raise JSONDecodeError;
     body_chunks := [Ok [Byte.x00; Byte.x01]; Ok [Byte.x02]] |}.

Definition broken_body : response :=
  {| status_code := 200;
     json_body := Raise JSONDecodeError;
     body_chunks := [Ok [Byte.x00; Byte.x01]; Raise RequestException;
                     Ok [Byte.x02]] |}.

End Scenario.

(** ** The program *)

Section Pipeline.

(** The outside world and the library calls that act on it. *)
Variable World : Type.

(** [requests.get], [open(path, 'wb')], [f.write] and the close on
    leaving the [with] block. *)
Variable requests_get : request -> M World response.
Variable open_wb : string -> M World unit.
Variable file_write : string -> chunk -> M World unit.
Variable file_close : string -> M World unit.

(** [ImageFont.truetype(path, size)] succeeds or raises;
    [draw.textbbox((0, 0), line, font=font)] measures a line as
    (left, top, right, bottom); [textwrap.fill(paragraph, width)] for a
    positive width. *)
Variable truetype_open : string -> Z -> M World unit.
Variable textbbox : font -> string -> Z * Z * Z * Z.
Variable textwrap_fill : string -> Z -> string.

(** [Path.mkdir(exist_ok=True)],
    [gTTS(text, lang='en', slow=False).save(path)],
    [AudioFileClip(path).duration], [VideoFileClip(path).duration],
    [final_video.write_videofile(path, ...)] and [input(prompt)]. *)
Variable mkdir : string -> M World unit.
Variable gtts_save : string -> string -> M World unit.
Variable audio_file_clip : string -> M World Q.
Variable video_file_clip : string -> M World Q.
Variable write_videofile : final_video -> string -> M World unit.
Variable input : string -> M World string.

Local Open Scope py_scope.

(** [BeanFlowVideoGenerator(output_dir)]. *)
Definition new_generator (dir : string) : M World generator :=
  _ <- mkdir dir ;;
  ret {| output_dir := dir; pexels_api_key := None |}.

(** *** Stock footage client *)

Definition search_request (key query : string) (per_page : Z) : request :=
  {| req_url := "https://api.pexels.com/videos/search";
     req_headers := [("Authorization", key)];
     req_params := [("query", PStr query); ("per_page", PInt per_page);
                    ("orientation", PStr "landscape")];
     req_stream := false |}.

(** The [try] block of [search_pexels_videos]. *)
Definition search_body (key query : string) (per_page : Z)
    : M World (list video) :=
  response <- requests_get (search_request key query per_page) ;;
  _ <- lift (raise_for_status response) ;;
  data <- lift (json_body response) ;;
  lift (get_videos data).

Definition search_pexels_videos (self : generator) (query : string)
    (per_page : Z) : M World (list video) :=
  if negb (key_truthy (pexels_api_key self)) then ret []
  else
    let key := match pexels_api_key self with
               | Some k => k
               | None => EmptyString
               end in
    try_except (search_body key query per_page) (fun _ => ret []).

Definition download_request (url : string) : request :=
  {| req_url := url; req_headers := []; req_params := [];
     req_stream := true |}.

(** The body of the [with open(...)] block: every chunk the stream
    yields is written in turn. *)
Definition write_stream (filepath : string) (chunks : list (result chunk))
    : M World unit :=
  for_each (fun next => c <- lift next ;; file_write filepath c) chunks.

(** The [try] block of [download_video]. *)
Definition download_body (self : generator) (url filename : string)
    : M World string :=
  response <- requests_get (download_request url) ;;
  _ <- lift (raise_for_status response) ;;
  let filepath := path_join (output_dir self) filename in
  _ <- open_wb filepath ;;
  _ <- try_finally (write_stream filepath (body_chunks response))
                   (file_close filepath) ;;
  ret filepath.

(** [None] is the failure value; a path is returned otherwise. *)
Definition download_video (self : generator) (url filename : string)
    : M World (option string) :=
  try_except
    (filepath <- download_body self url filename ;; ret (Some filepath))
    (fun _ => ret None).

(** *** Slide renderer *)

Definition truetype (path : string) (size : Z) : M World font :=
  _ <- truetype_open path size ;; ret (TrueTypeFont path size).

Definition helvetica : string := "/System/Library/Fonts/Helvetica.ttc".
Definition arial : string := "/System/Library/Fonts/Supplemental/Arial.ttf".

(** The nested [try]/[except] of [create_text_slide]: the font in use and
    the font size the layout goes on with. *)
Definition resolve_font (fontsize : Z) : M World (font * Z) :=
  try_except
    (f <- truetype helvetica fontsize ;; ret (f, fontsize))
    (fun _ =>
       try_except
         (f <- truetype arial fontsize ;; ret (f, fontsize))
         (fun _ => ret (DefaultFont, 20%Z))).

(** [textwrap.fill(paragraph, width=width)]: a width that is not
    positive is refused with a [ValueError]. *)
Definition fill (paragraph : string) (width : Z) : result string :=
  if (width <=? 0)%Z then Raise (ValueError "invalid width (must be > 0)")
  else Ok (textwrap_fill paragraph width).

(** [int(max_width / avg_char_width)] with
    [avg_char_width = fontsize * 0.6]. *)
Definition chars_per_line (max_width fontsize : Z) : result Z :=
  let avg_char_width := inject_Z fontsize * (6 # 10) in
  if Qeq_bool avg_char_width 0 then Raise ZeroDivisionError
  else Ok (int_of_Q (inject_Z max_width / avg_char_width)).

(** One round of the loop over [text.split('\n')]: the lines the
    paragraph adds to [lines]. *)
Definition wrap_paragraph (max_width fontsize : Z) (paragraph : string)
    : result (list string) :=
  if PyStr.truthy (PyStr.strip paragraph) then
    result_bind (chars_per_line max_width fontsize) (fun width =>
    result_bind (fill paragraph width) (fun wrapped =>
    Ok (PyStr.split newline wrapped)))
  else Ok [EmptyString].

Fixpoint wrap_paragraphs (max_width fontsize : Z) (lines : list string)
    (paragraphs : list string) : result (list string) :=
  match paragraphs with
  | [] => Ok lines
  | paragraph :: rest =>
      result_bind (wrap_paragraph max_width fontsize paragraph)
        (fun added => wrap_paragraphs max_width fontsize (lines ++ added) rest)
  end.

(** [bbox[2] - bbox[0]] of [draw.textbbox((0, 0), line, font=font)]. *)
Definition text_width (f : font) (line : string) : Z :=
  let '(bbox0, _, bbox2, _) := textbbox f line in (bbox2 - bbox0)%Z.

(** The drawing loop: each line at its own [x], the lines one
    [line_height] apart from [y] down. *)
Fixpoint draw_lines (canvas_width : Z) (f : font) (line_height : Z) (y : Z)
    (lines : list string) : list text_op :=
  match lines with
  | [] => []
  | line :: rest =>
      let x := ((canvas_width - text_width f line) / 2)%Z in
      {| op_x := x; op_y := y; op_line := line |}
        :: draw_lines canvas_width f line_height (y + line_height)%Z rest
  end.

Definition line_height_of (fontsize : Z) : Z :=
  int_of_Q (inject_Z fontsize * (3 # 2)).

Definition default_size : Z * Z := (1920, 1080)%Z.
Definition default_fontsize : Z := 60%Z.
Definition default_color : rgb := (255, 255, 255)%Z.
Definition default_bg_color : rgb := (30, 30, 30)%Z.

(** The part of [create_text_slide] after the font is resolved:
    wrapping, centring and drawing. *)
Definition layout_slide (f : font) (fontsize : Z) (text : string)
    (duration : Q) (size : Z * Z) (color bg_color : rgb) : result slide :=
  let max_width := (fst size - 200)%Z in
  result_bind
    (wrap_paragraphs max_width fontsize [] (PyStr.split newline text))
    (fun lines =>
       let line_height := line_height_of fontsize in
       let total_height := (Z.of_nat (List.length lines) * line_height)%Z in
       let y := ((snd size - total_height) / 2)%Z in
       Ok {| slide_size := size;
             slide_bg := bg_color;
             slide_color := color;
             slide_font := f;
             slide_ops := draw_lines (fst size) f line_height y lines;
             slide_duration := duration |}).

Definition create_text_slide (text : string) (duration : Q) (size : Z * Z)
    (fontsize : Z) (color bg_color : rgb) : M World slide :=
  resolved <- resolve_font fontsize ;;
  lift (layout_slide (fst resolved) (snd resolved) text duration size
          color bg_color).

(** *** Segment composer *)

Definition scenes : list (string * Z) :=
  [ ("BeanFlow" ++ nl ++ "AI-Powered Coffee Shop Solution", 3);
    ("The Problem:" ++ nl ++ "Bottleneck at the Register", 8);
    ("Customers wait..." ++ nl ++ "Baristas are stressed..." ++ nl
       ++ "Revenue is lost", 8);
    ("The Solution:" ++ nl ++ "BeanFlow AI System", 5);
    ("Part 1:" ++ nl ++ "Seamless Mobile/Kiosk Ordering", 6);
    ("Part 2:" ++ nl ++ "Predictive AI Engine", 8);
    ("Forecast orders before" ++ nl ++ "they're placed", 7);
    ("Pre-prep ingredients" ++ nl ++ "during payment", 6);
    ("Result:" ++ nl ++ "20% Faster Service", 8);
    ("More customers served" ++ nl ++ "Higher revenue" ++ nl
       ++ "No extra staff needed", 8);
    ("BeanFlow:" ++ nl ++ "Your Competitive Advantage", 5);
    ("Let's discuss your ROI", 3) ]%Z.

(** [sum(d for _, d in scenes)]. *)
Definition total_scene_duration : Z :=
  fold_left (fun acc scene => (acc + snd scene)%Z) scenes 0%Z.

(** [for text, duration in scenes], appending one slide per scene. *)
Fixpoint scene_slides (scale_factor : Q) (remaining : list (string * Z))
    : M World (list segment) :=
  match remaining with
  | [] => ret []
  | (text, duration) :: rest =>
      let adjusted_duration := inject_Z duration * scale_factor in
      clip <- create_text_slide text adjusted_duration default_size 70
                default_color default_bg_color ;;
      clips <- scene_slides scale_factor rest ;;
      ret (SlideClip clip :: clips)
  end.

Definition create_video_without_pexels (self : generator)
    (audio_path script : string) : M World final_video :=
  total_duration <- audio_file_clip audio_path ;;
  let scale_factor := total_duration / inject_Z total_scene_duration in
  clips <- scene_slides scale_factor scenes ;;
  ret {| video_track := clips;
         video_audio := {| audio_path := audio_path;
                           audio_duration := total_duration |} |}.

Definition queries : list string :=
  [ "coffee shop busy";
    "coffee barista working";
    "people waiting in line";
    "mobile phone ordering";
    "artificial intelligence";
    "coffee preparation";
    "happy customers coffee";
    "business success" ].

(** Truth value of [videos[0].get("video_files")]. *)
Definition files_truthy (files : option (list video_file)) : bool :=
  match files with
  | Some (_ :: _) => true
  | _ => false
  end.

Definition quality_is_hd (v : video_file) : bool :=
  match vf_quality v with
  | Some q => String.eqb q "hd"
  | None => false
  end.

(** The variant carries the quality tag ["hd"]. *)
Definition tagged_hd (v : video_file) : Prop := vf_quality v = Some "hd".

(** [next((v for v in video_files if v.get("quality") == "hd"),
    video_files[0])]: the default is evaluated first. *)
Definition select_variant (files : list video_file) : result video_file :=
  match files with
  | [] => Raise IndexError
  | first :: _ =>
      match find quality_is_hd files with
      | Some v => Ok v
      | None => Ok first
      end
  end.

(** [hd_video["link"]]. *)
Definition link_of (v : video_file) : result string :=
  match vf_link v with
  | Some url => Ok url
  | None => Raise (KeyError "link")
  end.

Definition fallback_slide (query : string) (duration_per_clip : Q)
    : M World segment :=
  clip <- create_text_slide (PyStr.title query) duration_per_clip
            default_size default_fontsize default_color default_bg_color ;;
  ret (SlideClip clip).

(** One round of [for i, query in enumerate(queries)]: the clip the
    round appends. *)
Definition footage_segment (self : generator) (duration_per_clip : Q)
    (i : nat) (query : string) : M World segment :=
  videos <- search_pexels_videos self query 3 ;;
  match videos with
  | first :: _ =>
      if files_truthy (video_files first) then
        let files := match video_files first with
                     | Some fs => fs
                     | None => []
                     end in
        hd_video <- lift (select_variant files) ;;
        video_url <- lift (link_of hd_video) ;;
        video_path <- download_video self video_url
                        ("clip_" ++ PyStr.of_nat i ++ ".mp4") ;;
        match video_path with
        | Some path =>
            clip_duration <- video_file_clip path ;;
            if Qlt_le_dec clip_duration duration_per_clip
            then ret (LoopClip path clip_duration duration_per_clip)
            else ret (SubClip path clip_duration 0 duration_per_clip)
        | None => fallback_slide query duration_per_clip
        end
      else fallback_slide query duration_per_clip
  | [] => fallback_slide query duration_per_clip
  end.

Definition create_video_with_pexels (self : generator)
    (audio_path script : string) : M World final_video :=
  total_duration <- audio_file_clip audio_path ;;
  let duration_per_clip :=
    total_duration / inject_Z (Z.of_nat (List.length queries)) in
  clips <- for_enumerate (footage_segment self duration_per_clip) 0 queries ;;
  ret {| video_track := clips;
         video_audio := {| audio_path := audio_path;
                           audio_duration := total_duration |} |}.

(** *** Pipeline *)

Definition generate_audio (self : generator) (script output_file : string)
    : M World string :=
  let audio_path := path_join (output_dir self) output_file in
  _ <- gtts_save script audio_path ;;
  ret audio_path.

(** The strategy choice of [generate_video]. *)
Definition compose_video (self : generator) (audio_path script : string)
    (use_pexels : bool) : M World final_video :=
  if use_pexels && key_truthy (pexels_api_key self)
  then create_video_with_pexels self audio_path script
  else create_video_without_pexels self audio_path script.

Definition generate_video (self : generator) (script : string)
    (use_pexels : bool) : M World string :=
  audio_path <- generate_audio self script "audio.mp3" ;;
  final_video <- compose_video self audio_path script use_pexels ;;
  let output_path := path_join (output_dir self) "beanflow_pitch.mp4" in
  _ <- write_videofile final_video output_path ;;
  ret output_path.

Definition prompt : string :=
  nl ++ "Enter Pexels API key (or press Enter to skip for text-only video): ".

(** [main()], for the narration [script] it holds. *)
Definition main (script : string) : M World string :=
  generator <- new_generator "beanflow_output" ;;
  typed <- input prompt ;;
  let pexels_key := PyStr.strip typed in
  let '(generator, use_pexels) :=
    if PyStr.truthy pexels_key
    then (set_pexels_api_key generator pexels_key, true)
    else (generator, false) in
  generate_video generator script use_pexels.


(** *** Vocabulary of the statements *)

(** The lines one paragraph contributes when the wrap width is
    [width]. *)
Definition paragraph_lines (width : Z) (paragraph : string) : list string :=
  if PyStr.truthy (PyStr.strip paragraph)
  then PyStr.split newline (textwrap_fill paragraph width)
  else [EmptyString].

(** A run of [for_enumerate] in which every round returns: the rounds
    happen in list order, each from the world the round before left. *)
Inductive rounds {A B} (body : nat -> A -> M World B)
    : nat -> list A -> World -> list B -> World -> Prop :=
| rounds_done i w : rounds body i [] w [] w
| rounds_next i x xs w b w1 bs w' :
    body i x w = (Ok b, w1) ->
    rounds body (S i) xs w1 bs w' ->
    rounds body i (x :: xs) w (b :: bs) w'.

(** The provider's entries are complete: the variant chosen from the
    first result of a search always carries a ["link"]. *)
Definition links_present (self : generator) : Prop :=
  forall query w first others w' files v,
    search_pexels_videos self query 3 w = (Ok (first :: others), w') ->
    video_files first = Some files ->
    select_variant files = Ok v ->
    exists url, vf_link v = Some url.

(** Every file handed to [VideoFileClip] opens as a video. *)
Definition clips_open : Prop :=
  forall path w, exists d w', video_file_clip path w = (Ok d, w').

(** The footage of a beat is unavailable: the search returns nothing,
    its first result has no file variants, or the download of the chosen
    variant fails.  [w'] is the world the attempt leaves. *)
Inductive footage_unavailable (self : generator) (i : nat) (query : string)
    (w : World) : World -> Prop :=
| search_empty w' :
    search_pexels_videos self query 3 w = (Ok [], w') ->
    footage_unavailable self i query w w'
| no_variants first others w' :
    search_pexels_videos self query 3 w = (Ok (first :: others), w') ->
    files_truthy (video_files first) = false ->
    footage_unavailable self i query w w'
| download_failed first others w1 files v url w' :
    search_pexels_videos self query 3 w = (Ok (first :: others), w1) ->
    video_files first = Some files ->
    select_variant files = Ok v ->
    vf_link v = Some url ->
    download_video self url ("clip_" ++ PyStr.of_nat i ++ ".mp4") w1
    = (Ok None, w') ->
    footage_unavailable self i query w w'.

(** The contract of [textwrap.fill]: no line of the wrapped text is
    longer than the width. *)
Definition fill_respects_width : Prop :=
  forall paragraph width line,
    (0 < width)%Z ->
    In line (PyStr.split newline (textwrap_fill paragraph width)) ->
    (PyStr.len line <= width)%Z.

(** The slide of one scene: the scene's text on the default canvas at
    font size 70, held for [duration]. *)
Definition scene_slide_of (text : string) (duration : Q) (clip : segment)
    : Prop :=
  exists s wa wb,
    clip = SlideClip s
    /\ create_text_slide text duration default_size 70 default_color
         default_bg_color wa = (Ok s, wb)
    /\ slide_duration s = duration.

(** The fallback slide of a beat: the query in title case on the default
    canvas at the default font size, held for [duration]. *)
Definition fallback_of (query : string) (duration : Q) (clip : segment)
    : Prop :=
  exists s wa wb,
    clip = SlideClip s
    /\ create_text_slide (PyStr.title query) duration default_size
         default_fontsize default_color default_bg_color wa = (Ok s, wb)
    /\ slide_duration s = duration.

(** *** Vocabulary of the further statements *)

(** What a file holds in a world, when the world has the file. *)
Variable file_content : World -> string -> option (list Byte.byte).

(** The file system as [open(path, 'wb')], [f.write] and the closing of
    the file use it: a successful open leaves the file empty, a
    successful write appends the chunk, and closing changes no content. *)
Definition open_truncates : Prop :=
  forall path w w',
    open_wb path w = (Ok tt, w') -> file_content w' path = Some [].

Definition write_appends : Prop :=
  forall path c w w' bytes,
    file_write path c w = (Ok tt, w') ->
    file_content w path = Some bytes ->
    file_content w' path = Some (bytes ++ c)%list.

Definition close_keeps_content : Prop :=
  forall path w r w',
    file_close path w = (r, w') -> file_content w' path = file_content w path.

(** The file a footage segment plays. *)
Definition segment_path (c : segment) : option string :=
  match c with
  | SlideClip _ => None
  | LoopClip path _ _ => Some path
  | SubClip path _ _ _ => Some path
  end.

(** The paragraph has something to wrap: [paragraph.strip()] is true. *)
Definition nonblank (paragraph : string) : Prop :=
  PyStr.truthy (PyStr.strip paragraph) = true.

(** Every character of the string is white space. *)
Fixpoint all_whitespace (s : string) : bool :=
  match s with
  | EmptyString => true
  | String c rest => PyStr.isspace c && all_whitespace rest
  end.


(** ** Properties *)

(** *** Exceptions that are caught *)

Lemma try_except_ok {A} (body : M World A) (handler : exn -> M World A) w a w' :
  body w = (Ok a, w') -> try_except body handler w = (Ok a, w').
Proof. unfold try_except. intros ->. reflexivity. Qed.

Lemma try_except_caught {A} (body : M World A) (handler : exn -> M World A)
    w e w' :
  body w = (Raise e, w') -> try_except body handler w = handler e w'.
Proof. unfold try_except. intros ->. reflexivity. Qed.

Lemma bind_ok {A B} (c : M World A) (k : A -> M World B) w a w' :
  c w = (Ok a, w') -> bind c k w = k a w'.
Proof. unfold bind. intros ->. reflexivity. Qed.

Lemma bind_raise {A B} (c : M World A) (k : A -> M World B) w e w' :
  c w = (Raise e, w') -> bind c k w = (Raise e, w').
Proof. unfold bind. intros ->. reflexivity. Qed.

(** A [try] whose handler returns a value never raises. *)
Lemma try_except_returns {A} (body : M World A) (fallback : A) w :
  exists a w', try_except body (fun _ => ret fallback) w = (Ok a, w').
Proof.
  unfold try_except. destruct (body w) as [[a | e] w'].
  - exists a, w'. reflexivity.
  - exists fallback, w'. reflexivity.
Qed.

Lemma search_no_key self query per_page w :
  key_truthy (pexels_api_key self) = false ->
  search_pexels_videos self query per_page w = (Ok [], w).
Proof. unfold search_pexels_videos. intros ->. reflexivity. Qed.

Lemma search_with_key self key query per_page :
  pexels_api_key self = Some key -> PyStr.truthy key = true ->
  search_pexels_videos self query per_page
  = try_except (search_body key query per_page) (fun _ => ret []).
Proof.
  unfold search_pexels_videos, key_truthy. intros -> ->. reflexivity.
Qed.

Lemma search_returns self query per_page w :
  exists vs w', search_pexels_videos self query per_page w = (Ok vs, w').
Proof.
  unfold search_pexels_videos.
  destruct (negb (key_truthy (pexels_api_key self))).
  - exists [], w. reflexivity.
  - apply try_except_returns.
Qed.

Lemma download_returns self url filename w :
  exists r w', download_video self url filename w = (Ok r, w')
    /\ (r = None \/ r = Some (path_join (output_dir self) filename)).
Proof.
  unfold download_video, try_except, bind, download_body, bind.
  destruct (requests_get (download_request url) w) as [[resp | e] w1];
    [| exists None, w1; auto].
  unfold lift. destruct (raise_for_status resp); [| exists None, w1; auto].
  destruct (open_wb _ w1) as [[[] | e] w2]; [| exists None, w2; auto].
  destruct (try_finally _ _ w2) as [[[] | e] w3]; [| exists None, w3; auto].
  exists (Some (path_join (output_dir self) filename)), w3. auto.
Qed.

(** C6: failures of the footage provider stay inside the client.
    [search_pexels_videos] always returns a list, the empty one when no
    key is configured, when the request raises and when the answer is an
    HTTP error or no usable JSON; [download_video] always returns either
    [None] or the path of the file, [None] when the request, the opening
    of the file or a write fails, and the path when every step succeeds. *)
Theorem client_failures_are_values :
  (forall self query per_page w,
      exists vs w', search_pexels_videos self query per_page w = (Ok vs, w'))
  /\ (forall self query per_page w,
      key_truthy (pexels_api_key self) = false ->
      search_pexels_videos self query per_page w = (Ok [], w))
  /\ (forall self key query per_page w e w',
      pexels_api_key self = Some key -> PyStr.truthy key = true ->
      search_body key query per_page w = (Raise e, w') ->
      search_pexels_videos self query per_page w = (Ok [], w'))
  /\ (forall key query per_page w,
      (forall e w', requests_get (search_request key query per_page) w
                    = (Raise e, w') ->
                    search_body key query per_page w = (Raise e, w'))
      /\ (forall r w', requests_get (search_request key query per_page) w
                       = (Ok r, w') ->
                       is_ok (raise_for_status r) && is_ok (json_body r) = false ->
                       exists e, search_body key query per_page w
                                 = (Raise e, w')))
  /\ (forall self url filename w,
      exists r w', download_video self url filename w = (Ok r, w')
        /\ (r = None \/ r = Some (path_join (output_dir self) filename)))
  /\ (forall self url filename w e w',
      download_body self url filename w = (Raise e, w') ->
      download_video self url filename w = (Ok None, w'))
  /\ (forall self url filename w p w',
      download_body self url filename w = (Ok p, w') ->
      p = path_join (output_dir self) filename
      /\ download_video self url filename w = (Ok (Some p), w'))
  /\ (forall self url filename w,
      let filepath := path_join (output_dir self) filename in
      (forall e w', requests_get (download_request url) w = (Raise e, w') ->
                    download_body self url filename w = (Raise e, w'))
      /\ (forall r w' e, requests_get (download_request url) w = (Ok r, w') ->
                         raise_for_status r = Raise e ->
                         download_body self url filename w = (Raise e, w'))
      /\ (forall r w1 w2 e w3,
             requests_get (download_request url) w = (Ok r, w1) ->
             raise_for_status r = Ok tt ->
             open_wb filepath w1 = (Ok tt, w2) ->
             write_stream filepath (body_chunks r) w2 = (Raise e, w3) ->
             exists e' w4, download_body self url filename w = (Raise e', w4))).
Proof.
  split; [exact search_returns |].
  split; [exact search_no_key |].
  split.
  { intros self key query per_page w e w' Hkey Htruthy Hbody.
    rewrite (search_with_key self key query per_page Hkey Htruthy).
    rewrite (try_except_caught _ _ _ _ _ Hbody). reflexivity. }
  split.
  { intros key query per_page w. split.
    - intros e w' Hget. unfold search_body. apply bind_raise. exact Hget.
    - intros r w' Hget Hbad. unfold search_body.
      rewrite (bind_ok _ _ _ _ _ Hget). unfold bind, lift.
      destruct (raise_for_status r) as [[] | e1]; [| exists e1; reflexivity].
      destruct (json_body r) as [data | e2]; [discriminate | ].
      exists e2. reflexivity. }
  split; [exact download_returns |].
  split.
  { intros self url filename w e w' Hbody. unfold download_video.
    rewrite (try_except_caught _ _ w e w'); [reflexivity |].
    apply bind_raise. exact Hbody. }
  split.
  { intros self url filename w p w' Hbody. split.
    - revert Hbody. unfold download_body, bind, lift.
      destruct (requests_get _ w) as [[resp | e] w1]; [| discriminate].
      destruct (raise_for_status resp); [| discriminate].
      destruct (open_wb _ w1) as [[[] | e] w2]; [| discriminate].
      destruct (try_finally _ _ w2) as [[[] | e] w3]; [| discriminate].
      unfold ret. intros H. injection H as <- _. reflexivity.
    - unfold download_video. apply try_except_ok.
      rewrite (bind_ok _ _ _ _ _ Hbody). reflexivity. }
  intros self url filename w filepath. split.
  { intros e w' Hget. unfold download_body. apply bind_raise. exact Hget. }
  split.
  { intros r w' e Hget Hstatus. unfold download_body.
    rewrite (bind_ok _ _ _ _ _ Hget). unfold bind, lift.
    rewrite Hstatus. reflexivity. }
  intros r w1 w2 e w3 Hget Hstatus Hopen Hwrite. unfold download_body.
  rewrite (bind_ok _ _ _ _ _ Hget). unfold bind at 1. unfold lift at 1.
  rewrite Hstatus. fold filepath.
  rewrite (bind_ok _ _ _ _ _ Hopen).
  unfold bind, try_finally. rewrite Hwrite.
  destruct (file_close filepath w3) as [[[] | e'] w4].
  - exists e, w4. reflexivity.
  - exists e', w4. reflexivity.
Qed.

(** *** Variant selection *)

Lemma quality_is_hd_spec v : quality_is_hd v = true <-> tagged_hd v.
Proof.
  unfold quality_is_hd, tagged_hd. destruct (vf_quality v) as [q |].
  - rewrite String.eqb_eq. split; [intros -> | intros [= ->]]; reflexivity.
  - split; discriminate.
Qed.

Lemma find_first_match {A} (p : A -> bool) (l : list A) :
  match find p l with
  | Some x => exists before after,
      l = (before ++ x :: after)%list /\ p x = true
      /\ Forall (fun y => p y = false) before
  | None => Forall (fun y => p y = false) l
  end.
Proof.
  induction l as [| a l IH]; simpl.
  - constructor.
  - destruct (p a) eqn:Hpa.
    + exists [], l. repeat split; [exact Hpa | constructor].
    + destruct (find p l) as [x |].
      * destruct IH as (before & after & -> & Hx & Hbefore).
        exists (a :: before), after. repeat split; [exact Hx |].
        constructor; assumption.
      * constructor; assumption.
Qed.

Lemma not_hd_false v : quality_is_hd v = false -> ~ tagged_hd v.
Proof.
  intros H Htag. apply quality_is_hd_spec in Htag. congruence.
Qed.

(** C7: on a non-empty list of file variants the selected variant is the
    first one tagged ["hd"] when some variant carries that tag, and the
    first variant of the list when none does. *)
Theorem select_variant_prefers_hd (first : video_file) (rest : list video_file) :
  exists v, select_variant (first :: rest) = Ok v
    /\ ((exists before after,
            first :: rest = (before ++ v :: after)%list
            /\ tagged_hd v
            /\ Forall (fun u => ~ tagged_hd u) before)
        \/ (Forall (fun u => ~ tagged_hd u) (first :: rest) /\ v = first)).
Proof.
  unfold select_variant.
  pose proof (find_first_match quality_is_hd (first :: rest)) as Hfind.
  destruct (find quality_is_hd (first :: rest)) as [v |].
  - destruct Hfind as (before & after & Heq & Hv & Hbefore).
    exists v. split; [reflexivity |]. left. exists before, after.
    split; [exact Heq |]. split; [apply quality_is_hd_spec; exact Hv |].
    eapply Forall_impl; [| exact Hbefore]. exact not_hd_false.
  - exists first. split; [reflexivity |]. right. split; [| reflexivity].
    eapply Forall_impl; [| exact Hfind]. exact not_hd_false.
Qed.

(** *** Font resolution *)

Lemma resolve_font_cases fontsize w :
  match truetype_open helvetica fontsize w with
  | (Ok _, w1) =>
      resolve_font fontsize w = (Ok (TrueTypeFont helvetica fontsize, fontsize), w1)
  | (Raise _, w1) =>
      match truetype_open arial fontsize w1 with
      | (Ok _, w2) =>
          resolve_font fontsize w = (Ok (TrueTypeFont arial fontsize, fontsize), w2)
      | (Raise _, w2) =>
          resolve_font fontsize w = (Ok (DefaultFont, 20%Z), w2)
      end
  end.
Proof.
  unfold resolve_font, try_except, truetype, bind, helvetica, arial.
  destruct (truetype_open _ fontsize w) as [[[] | e1] w1]; [reflexivity |].
  destruct (truetype_open _ fontsize w1) as [[[] | e2] w2]; reflexivity.
Qed.

Lemma resolve_font_returns fontsize w :
  exists f size w',
    resolve_font fontsize w = (Ok (f, size), w')
    /\ (size = fontsize \/ size = 20%Z).
Proof.
  pose proof (resolve_font_cases fontsize w) as Hcases.
  destruct (truetype_open helvetica fontsize w) as [[[] | e1] w1].
  - eexists _, _, _. split; [exact Hcases | now left].
  - destruct (truetype_open arial fontsize w1) as [[[] | e2] w2];
      eexists _, _, _; (split; [exact Hcases | auto]).
Qed.

Lemma create_text_slide_after_font fontsize w f size w' :
  resolve_font fontsize w = (Ok (f, size), w') ->
  forall text duration size' color bg_color,
    create_text_slide text duration size' fontsize color bg_color w
    = (layout_slide f size text duration size' color bg_color, w').
Proof.
  intros Hres text duration size' color bg_color.
  unfold create_text_slide. rewrite (bind_ok _ _ _ _ _ Hres). reflexivity.
Qed.

(** C9: font resolution always yields a font.  Whatever the two
    [truetype] calls do, [resolve_font] returns; when both raise, the
    font is the built-in one and the font size becomes 20; and
    [create_text_slide] goes on to the layout with the font obtained. *)
Theorem font_resolution_total (fontsize : Z) (w : World) :
  exists f size w',
    resolve_font fontsize w = (Ok (f, size), w')
    /\ (forall e1 w1 e2 w2,
           truetype_open helvetica fontsize w = (Raise e1, w1) ->
           truetype_open arial fontsize w1 = (Raise e2, w2) ->
           f = DefaultFont /\ size = 20%Z /\ w' = w2)
    /\ (forall text duration size' color bg_color,
           create_text_slide text duration size' fontsize color bg_color w
           = (layout_slide f size text duration size' color bg_color, w')).
Proof.
  pose proof (resolve_font_cases fontsize w) as Hcases.
  pose proof (create_text_slide_after_font fontsize w) as Hslide.
  destruct (truetype_open helvetica fontsize w) as [[[] | e1] w1] eqn:H1.
  - exists (TrueTypeFont helvetica fontsize), fontsize, w1.
    split; [exact Hcases |]. split; [| exact (Hslide _ _ _ Hcases)].
    intros e1 w1' e2 w2 [=].
  - destruct (truetype_open arial fontsize w1) as [[[] | e2] w2] eqn:H2.
    + exists (TrueTypeFont arial fontsize), fontsize, w2.
      split; [exact Hcases |]. split; [| exact (Hslide _ _ _ Hcases)].
      intros e1' w1' e2' w2' [= _ <-]. rewrite H2. intros [=].
    + exists DefaultFont, 20%Z, w2.
      split; [exact Hcases |]. split; [| exact (Hslide _ _ _ Hcases)].
      intros e1' w1' e2' w2' [= _ <-]. rewrite H2. intros [= _ <-]. auto.
Qed.

(** *** Slide layout *)

Lemma int_of_Q_floor (x : Q) (n : Z) :
  int_of_Q x = n -> (0 < n)%Z -> inject_Z n <= x /\ x < inject_Z n + 1.
Proof.
  destruct x as [a b]. unfold int_of_Q, Qle, Qlt. simpl. intros Hn Hpos.
  assert (Ha : (0 <= a)%Z).
  { destruct (Z_lt_le_dec a 0) as [Hneg | Hnn]; [| exact Hnn].
    exfalso. pose proof (Z.quot_opp_l (- a) (Z.pos b)) as Hq.
    rewrite Z.opp_involutive in Hq.
    assert (0 <= Z.quot (- a) (Z.pos b))%Z by (apply Z.quot_pos; lia).
    lia. }
  rewrite Z.quot_div_nonneg in Hn by lia.
  pose proof (Z.div_mod a (Z.pos b) ltac:(lia)) as Hdm.
  pose proof (Z.mod_pos_bound a (Z.pos b) ltac:(lia)) as Hmod.
  subst n. split; nia.
Qed.

Lemma line_height_quot fontsize :
  line_height_of fontsize = Z.quot (3 * fontsize) 2.
Proof.
  unfold line_height_of, int_of_Q.
  cbn [inject_Z Qmult Qnum Qden]. f_equal. lia.
Qed.

Lemma even_size_line_height size :
  Z.even size = true -> inject_Z (Z.quot (3 * size) 2) == inject_Z size * (3 # 2).
Proof.
  intros Heven. apply Z.even_spec in Heven as [k ->].
  replace (3 * (2 * k))%Z with (3 * k * 2)%Z by lia.
  rewrite Z.quot_mul by lia.
  unfold Qeq. cbn [inject_Z Qmult Qnum Qden]. lia.
Qed.

Lemma wrap_paragraph_ok max_width fontsize n paragraph :
  chars_per_line max_width fontsize = Ok n -> (0 < n)%Z ->
  wrap_paragraph max_width fontsize paragraph = Ok (paragraph_lines n paragraph).
Proof.
  intros Hn Hpos. unfold wrap_paragraph, paragraph_lines.
  destruct (PyStr.truthy (PyStr.strip paragraph)); [| reflexivity].
  rewrite Hn. simpl. unfold fill.
  destruct (Z.leb_spec n 0) as [Hle | _]; [lia | reflexivity].
Qed.

Lemma wrap_paragraph_blank max_width fontsize paragraph :
  PyStr.truthy (PyStr.strip paragraph) = false ->
  wrap_paragraph max_width fontsize paragraph = Ok [EmptyString].
Proof. unfold wrap_paragraph. intros ->. reflexivity. Qed.

Lemma wrap_paragraphs_ok max_width fontsize n :
  chars_per_line max_width fontsize = Ok n -> (0 < n)%Z ->
  forall paragraphs lines,
    wrap_paragraphs max_width fontsize lines paragraphs
    = Ok (lines ++ flat_map (paragraph_lines n) paragraphs)%list.
Proof.
  intros Hn Hpos. induction paragraphs as [| p ps IH]; intros lines; simpl.
  - rewrite app_nil_r. reflexivity.
  - rewrite (wrap_paragraph_ok _ _ _ p Hn Hpos). simpl.
    rewrite IH, <- app_assoc. reflexivity.
Qed.

Lemma paragraph_lines_bounded n paragraph :
  fill_respects_width -> (0 < n)%Z ->
  Forall (fun line => (PyStr.len line <= n)%Z) (paragraph_lines n paragraph).
Proof.
  intros Hfill Hpos. unfold paragraph_lines.
  destruct (PyStr.truthy (PyStr.strip paragraph)).
  - apply Forall_forall. intros line Hin. exact (Hfill _ _ _ Hpos Hin).
  - constructor; [| constructor]. unfold PyStr.len. simpl. lia.
Qed.

Lemma draw_lines_text canvas_width f h lines :
  forall y, map op_line (draw_lines canvas_width f h y lines) = lines.
Proof.
  induction lines as [| line rest IH]; intros y; simpl;
    [| rewrite IH]; reflexivity.
Qed.

Lemma draw_lines_position canvas_width f h lines :
  forall y i op,
    nth_error (draw_lines canvas_width f h y lines) i = Some op ->
    op_y op = (y + Z.of_nat i * h)%Z
    /\ op_x op = ((canvas_width - text_width f (op_line op)) / 2)%Z.
Proof.
  induction lines as [| line rest IH]; intros y i op.
  - destruct i; discriminate.
  - destruct i as [| i]; cbn [draw_lines nth_error].
    + intros [= <-]. cbn [op_y op_x op_line]. split; [lia | reflexivity].
    + intros Hnth. destruct (IH _ _ _ Hnth) as [Hy Hx].
      split; [rewrite Hy; lia | exact Hx].
Qed.

Lemma halves_balance (room : Z) :
  let margin := (room / 2)%Z in
  (0 <= (room - margin) - margin <= 1)%Z.
Proof.
  simpl. pose proof (Z.div_mod room 2 ltac:(lia)).
  pose proof (Z.mod_pos_bound room 2 ltac:(lia)). lia.
Qed.

(** C8 (as amended): the line layout of the slide renderer.  With
    [size] the font size in effect after font resolution and a wrap
    width [n = int((W - 200) / (size * 0.6))] of at least one, the text
    is split on newlines; every non-blank paragraph is wrapped by
    [textwrap.fill] at width [n], the floor of that quotient, so that no
    line is longer than [n] characters; every blank paragraph is kept as
    one empty line; line [i] is drawn at [y0 + i * h], where the line
    height [h] is the integer part of [size * 1.5], which is [size * 1.5]
    itself for an even size, and [y0] leaves equal margins (up to one
    pixel) above and below the block; and every line
    is drawn at the [x] that leaves equal margins (up to one pixel) left
    and right of its measured bounding-box width. *)
Theorem slide_line_layout (text : string) (duration : Q) (W H fontsize : Z)
    (color bg_color : rgb) (w : World) (f : font) (size : Z) (w' : World)
    (n : Z) :
  fill_respects_width ->
  resolve_font fontsize w = (Ok (f, size), w') ->
  chars_per_line (W - 200) size = Ok n ->
  (0 < n)%Z ->
  let lines :=
    flat_map (fun paragraph =>
                if PyStr.truthy (PyStr.strip paragraph)
                then PyStr.split newline (textwrap_fill paragraph n)
                else [EmptyString])
             (PyStr.split newline text) in
  let h := Z.quot (3 * size) 2 in
  let block := (Z.of_nat (List.length lines) * h)%Z in
  let y0 := ((H - block) / 2)%Z in
  (inject_Z n <= inject_Z (W - 200) / (inject_Z size * (6 # 10))
   /\ inject_Z (W - 200) / (inject_Z size * (6 # 10)) < inject_Z n + 1)
  /\ Forall (fun line => (PyStr.len line <= n)%Z) lines
  /\ (0 <= (H - block - y0) - y0 <= 1)%Z
  /\ (Z.even size = true -> inject_Z h == inject_Z size * (3 # 2))
  /\ exists s,
      create_text_slide text duration (W, H) fontsize color bg_color w
      = (Ok s, w')
      /\ slide_font s = f
      /\ slide_duration s = duration
      /\ map op_line (slide_ops s) = lines
      /\ forall i op,
          nth_error (slide_ops s) i = Some op ->
          op_y op = (y0 + Z.of_nat i * h)%Z
          /\ op_x op = ((W - text_width f (op_line op)) / 2)%Z
          /\ (0 <= (W - text_width f (op_line op) - op_x op) - op_x op <= 1)%Z.
Proof.
  intros Hfill Hfont Hn Hpos lines h block y0.
  assert (Hlines : lines = flat_map (paragraph_lines n) (PyStr.split newline text))
    by reflexivity.
  split.
  { apply int_of_Q_floor; [| exact Hpos].
    revert Hn. unfold chars_per_line.
    destruct (Qeq_bool (inject_Z size * (6 # 10)) 0); [discriminate |].
    intros [= Hn]. exact Hn. }
  split.
  { rewrite Hlines. apply Forall_flat_map, Forall_forall.
    intros paragraph _. apply paragraph_lines_bounded; assumption. }
  split; [apply halves_balance |].
  split; [exact (even_size_line_height size) |].
  unfold create_text_slide. rewrite (bind_ok _ _ _ _ _ Hfont).
  unfold lift, layout_slide. cbn [fst snd].
  rewrite (wrap_paragraphs_ok _ _ _ Hn Hpos). cbn [result_bind app].
  rewrite <- Hlines, line_height_quot. fold h. fold block. fold y0.
  eexists. split; [reflexivity |]. cbn [slide_font slide_duration slide_ops].
  split; [reflexivity |]. split; [reflexivity |].
  split; [apply draw_lines_text |].
  intros i op Hnth. destruct (draw_lines_position _ _ _ _ _ _ _ Hnth) as [Hy Hx].
  split; [exact Hy |]. split; [exact Hx |].
  rewrite Hx. apply halves_balance.
Qed.

(** *** Slides at the default canvas size *)

Lemma layout_slide_ok f size text duration W H color bg_color n :
  chars_per_line (W - 200) size = Ok n -> (0 < n)%Z ->
  exists s, layout_slide f size text duration (W, H) color bg_color = Ok s
    /\ slide_duration s = duration /\ slide_font s = f.
Proof.
  intros Hn Hpos. unfold layout_slide. cbn [fst snd].
  rewrite (wrap_paragraphs_ok _ _ _ Hn Hpos). cbn [result_bind].
  eexists. split; [reflexivity |]. split; reflexivity.
Qed.

(** On the default canvas a slide is always produced when the requested
    font size wraps to a positive width: the size 20 of the fallback font
    does. *)
Lemma create_text_slide_returns text duration fontsize color bg_color w n :
  chars_per_line 1720 fontsize = Ok n -> (0 < n)%Z ->
  exists s w',
    create_text_slide text duration default_size fontsize color bg_color w
    = (Ok s, w')
    /\ slide_duration s = duration.
Proof.
  intros Hn Hpos.
  destruct (resolve_font_returns fontsize w) as (f & size & w' & Hres & Hsize).
  rewrite (create_text_slide_after_font _ _ _ _ _ Hres).
  unfold default_size.
  destruct Hsize as [-> | ->].
  - destruct (layout_slide_ok f fontsize text duration 1920 1080 color
                bg_color n Hn Hpos) as (s & Hs & Hd & _).
    exists s, w'. rewrite Hs. auto.
  - destruct (layout_slide_ok f 20 text duration 1920 1080 color
                bg_color 143 eq_refl eq_refl) as (s & Hs & Hd & _).
    exists s, w'. rewrite Hs. auto.
Qed.

(** *** Slide-only mode *)

Lemma track_duration_map clips :
  track_duration clips = fold_right Qplus 0 (map seg_duration clips).
Proof.
  induction clips as [| c clips IH]; simpl; [| rewrite <- IH]; reflexivity.
Qed.

Lemma scene_slides_returns scale_factor beats :
  forall w, exists clips w',
    scene_slides scale_factor beats w = (Ok clips, w')
    /\ Forall2 (fun beat clip =>
                  scene_slide_of (fst beat)
                    (inject_Z (snd beat) * scale_factor) clip)
               beats clips.
Proof.
  induction beats as [| [text duration] rest IH]; intros w.
  - exists [], w. split; [reflexivity | constructor].
  - cbn [scene_slides].
    destruct (create_text_slide_returns text (inject_Z duration * scale_factor)
                70 default_color default_bg_color w 40 eq_refl eq_refl)
      as (s & w1 & Hs & Hd).
    destruct (IH w1) as (clips & w' & Hrest & Hall).
    exists (SlideClip s :: clips), w'.
    rewrite (bind_ok _ _ _ _ _ Hs), (bind_ok _ _ _ _ _ Hrest).
    split; [reflexivity |].
    constructor; [| exact Hall]. exists s, w, w1. auto.
Qed.

Lemma scene_slides_durations scale_factor beats clips :
  Forall2 (fun beat clip =>
             scene_slide_of (fst beat) (inject_Z (snd beat) * scale_factor) clip)
          beats clips ->
  map seg_duration clips
  = map (fun beat => inject_Z (snd beat) * scale_factor) beats.
Proof.
  induction 1 as [| beat clip beats clips Hclip _ IH]; [reflexivity |].
  destruct Hclip as (s & _ & _ & -> & _ & Hd).
  cbn [map seg_duration]. rewrite Hd, IH. reflexivity.
Qed.

(** C1: slide-only mode scales the twelve nominal durations uniformly.
    When the audio lasts [T], the composer returns twelve slides, the
    slide of beat [i] showing the beat's text for
    [d_i * (T / sum of the nominal durations)], the sum being 75, and the
    durations of the twelve slides add up to [T]. *)
Theorem slide_only_scaling (self : generator) (audio_path script : string)
    (w : World) (T : Q) (w1 : World) :
  audio_file_clip audio_path w = (Ok T, w1) ->
  exists v w',
    create_video_without_pexels self audio_path script w = (Ok v, w')
    /\ List.length scenes = 12%nat
    /\ total_scene_duration = fold_right Z.add 0%Z (map snd scenes)
    /\ total_scene_duration = 75%Z
    /\ Forall2 (fun beat clip =>
                  scene_slide_of (fst beat)
                    (inject_Z (snd beat) * (T / inject_Z total_scene_duration))
                    clip)
               scenes (video_track v)
    /\ map seg_duration (video_track v)
       = map (fun beat => inject_Z (snd beat)
                          * (T / inject_Z total_scene_duration)) scenes
    /\ track_duration (video_track v) == T.
Proof.
  intros Haudio. unfold create_video_without_pexels.
  rewrite (bind_ok _ _ _ _ _ Haudio).
  destruct (scene_slides_returns (T / inject_Z total_scene_duration) scenes w1)
    as (clips & w' & Hclips & Hall).
  rewrite (bind_ok _ _ _ _ _ Hclips).
  eexists _, w'. split; [reflexivity |]. cbn [video_track].
  split; [reflexivity |]. split; [reflexivity |]. split; [reflexivity |].
  split; [exact Hall |].
  pose proof (scene_slides_durations _ _ _ Hall) as Hmap.
  split; [exact Hmap |].
  rewrite track_duration_map, Hmap.
  change total_scene_duration with 75%Z.
  unfold scenes. cbn [map snd fold_right]. unfold inject_Z. field.
Qed.

(** *** Footage mode, one beat *)

Lemma fallback_slide_returns query duration_per_clip w :
  exists s w',
    fallback_slide query duration_per_clip w = (Ok (SlideClip s), w')
    /\ create_text_slide (PyStr.title query) duration_per_clip default_size
         default_fontsize default_color default_bg_color w = (Ok s, w')
    /\ slide_duration s = duration_per_clip.
Proof.
  destruct (create_text_slide_returns (PyStr.title query) duration_per_clip
              default_fontsize default_color default_bg_color w 47
              eq_refl eq_refl) as (s & w' & Hs & Hd).
  exists s, w'. unfold fallback_slide.
  rewrite (bind_ok _ _ _ _ _ Hs). auto.
Qed.

Lemma select_variant_nonempty files v :
  select_variant files = Ok v -> files_truthy (Some files) = true.
Proof. destruct files; [discriminate | reflexivity]. Qed.

Lemma footage_segment_search_empty self dpc i query w w1 :
  search_pexels_videos self query 3 w = (Ok [], w1) ->
  footage_segment self dpc i query w = fallback_slide query dpc w1.
Proof.
  intros Hsearch. unfold footage_segment.
  rewrite (bind_ok _ _ _ _ _ Hsearch). reflexivity.
Qed.

Lemma footage_segment_no_files self dpc i query w first others w1 :
  search_pexels_videos self query 3 w = (Ok (first :: others), w1) ->
  files_truthy (video_files first) = false ->
  footage_segment self dpc i query w = fallback_slide query dpc w1.
Proof.
  intros Hsearch Hfiles. unfold footage_segment.
  rewrite (bind_ok _ _ _ _ _ Hsearch), Hfiles. reflexivity.
Qed.

Lemma footage_segment_download self dpc i query w first others w1 files v url :
  search_pexels_videos self query 3 w = (Ok (first :: others), w1) ->
  video_files first = Some files ->
  select_variant files = Ok v ->
  vf_link v = Some url ->
  footage_segment self dpc i query w
  = bind (download_video self url ("clip_" ++ PyStr.of_nat i ++ ".mp4"))
      (fun video_path =>
         match video_path with
         | Some path =>
             bind (video_file_clip path) (fun clip_duration =>
               if Qlt_le_dec clip_duration dpc
               then ret (LoopClip path clip_duration dpc)
               else ret (SubClip path clip_duration 0 dpc))
         | None => fallback_slide query dpc
         end) w1.
Proof.
  intros Hsearch Hfiles Hselect Hlink. unfold footage_segment.
  rewrite (bind_ok _ _ _ _ _ Hsearch), Hfiles.
  rewrite (select_variant_nonempty _ _ Hselect).
  unfold bind at 1, lift at 1. rewrite Hselect.
  unfold bind at 1, lift at 1, link_of. rewrite Hlink. reflexivity.
Qed.

Lemma footage_unavailable_fallback self dpc i query w w' :
  footage_unavailable self i query w w' ->
  footage_segment self dpc i query w = fallback_slide query dpc w'.
Proof.
  intros [w1 Hsearch
         | first others w1 Hsearch Hfiles
         | first others w1 files v url w2 Hsearch Hfiles Hselect Hlink Hdown].
  - exact (footage_segment_search_empty _ _ _ _ _ _ Hsearch).
  - exact (footage_segment_no_files _ _ _ _ _ _ _ _ Hsearch Hfiles).
  - rewrite (footage_segment_download _ dpc _ _ _ _ _ _ _ _ _
               Hsearch Hfiles Hselect Hlink).
    rewrite (bind_ok _ _ _ _ _ Hdown). reflexivity.
Qed.

Lemma subclip_from_zero path d dpc :
  seg_duration (SubClip path d 0 dpc) == dpc.
Proof. cbn [seg_duration]. ring. Qed.

(** C3: a downloaded clip is fitted to the beat.  When the search gives
    a first result with file variants, the chosen variant is downloaded
    to [path] and the file opens as a clip of duration [d], the segment
    of the beat is that clip looped to the allotted duration if [d] is
    strictly smaller, and otherwise the clip cut to the window from 0 to
    the allotted duration; either way it lasts the allotted duration. *)
Theorem downloaded_clip_is_fitted (self : generator) (dpc : Q) (i : nat)
    (query : string) (w : World) (first : video) (others : list video)
    (w1 : World) (files : list video_file) (v : video_file) (url path : string)
    (w2 : World) (d : Q) (w3 : World) :
  search_pexels_videos self query 3 w = (Ok (first :: others), w1) ->
  video_files first = Some files ->
  select_variant files = Ok v ->
  vf_link v = Some url ->
  download_video self url ("clip_" ++ PyStr.of_nat i ++ ".mp4") w1
  = (Ok (Some path), w2) ->
  video_file_clip path w2 = (Ok d, w3) ->
  exists clip,
    footage_segment self dpc i query w = (Ok clip, w3)
    /\ (d < dpc -> clip = LoopClip path d dpc)
    /\ (~ d < dpc -> clip = SubClip path d 0 dpc)
    /\ seg_duration clip == dpc.
Proof.
  intros Hsearch Hfiles Hselect Hlink Hdown Hclip.
  rewrite (footage_segment_download _ dpc _ _ _ _ _ _ _ _ _
             Hsearch Hfiles Hselect Hlink).
  rewrite (bind_ok _ _ _ _ _ Hdown), (bind_ok _ _ _ _ _ Hclip).
  destruct (Qlt_le_dec d dpc) as [Hlt | Hle].
  - exists (LoopClip path d dpc). split; [reflexivity |].
    split; [reflexivity |]. split; [contradiction | reflexivity].
  - exists (SubClip path d 0 dpc). split; [reflexivity |].
    split; [intros Hlt; exfalso; exact (Qlt_not_le _ _ Hlt Hle) |].
    split; [reflexivity | apply subclip_from_zero].
Qed.

(** C10: only the first search result is looked at.  When the first
    result has no file variants the beat gets the fallback slide,
    whatever the results after it are, so also when one of them carries
    downloadable variants; no download is attempted: the slide is
    rendered from the world the search left. *)
Theorem only_first_result_is_examined (self : generator) (dpc : Q) (i : nat)
    (query : string) (w : World) (first : video) (others : list video)
    (w1 : World) :
  search_pexels_videos self query 3 w = (Ok (first :: others), w1) ->
  files_truthy (video_files first) = false ->
  exists s w',
    footage_segment self dpc i query w = (Ok (SlideClip s), w')
    /\ create_text_slide (PyStr.title query) dpc default_size
         default_fontsize default_color default_bg_color w1 = (Ok s, w')
    /\ slide_duration s = dpc.
Proof.
  intros Hsearch Hfiles.
  rewrite (footage_segment_no_files _ dpc i _ _ _ _ _ Hsearch Hfiles).
  apply fallback_slide_returns.
Qed.

(** *** Footage mode, the whole track *)

Lemma for_enumerate_rounds {A B} (body : nat -> A -> M World B) items :
  forall i w bs w',
    for_enumerate body i items w = (Ok bs, w') <-> rounds body i items w bs w'.
Proof.
  induction items as [| x xs IH]; intros i w bs w'.
  - cbn [for_enumerate]. unfold ret. split.
    + intros [= <- <-]. constructor.
    + intros Hr. inversion Hr. reflexivity.
  - cbn [for_enumerate]. split.
    + unfold bind at 1. destruct (body i x w) as [[b | e] w1] eqn:Hb;
        [| discriminate].
      unfold bind. destruct (for_enumerate body (S i) xs w1)
        as [[bs' | e] w2] eqn:Hrest; [| discriminate].
      unfold ret. intros [= <- <-].
      econstructor; [exact Hb | apply IH; exact Hrest].
    + intros Hr. inversion Hr as [| ? ? ? ? b w1 bs' ? Hb Hrest]; subst.
      rewrite (bind_ok _ _ _ _ _ Hb).
      apply IH in Hrest. rewrite (bind_ok _ _ _ _ _ Hrest). reflexivity.
Qed.

Lemma rounds_length {A B} (body : nat -> A -> M World B) i items w bs w' :
  rounds body i items w bs w' -> List.length bs = List.length items.
Proof. induction 1; simpl; congruence. Qed.

Lemma rounds_all {A B} (body : nat -> A -> M World B) (P : A -> B -> Prop) :
  (forall i x w b w', body i x w = (Ok b, w') -> P x b) ->
  forall i items w bs w',
    rounds body i items w bs w' -> Forall2 P items bs.
Proof.
  intros Hbody i items w bs w' Hr.
  induction Hr as [| i x xs w b w1 bs w' Hb _ IH]; constructor;
    [exact (Hbody _ _ _ _ _ Hb) | exact IH].
Qed.

Lemma rounds_exist {A B} (body : nat -> A -> M World B) :
  (forall i x w, exists b w', body i x w = (Ok b, w')) ->
  forall items i w, exists bs w', rounds body i items w bs w'.
Proof.
  intros Hbody. induction items as [| x xs IH]; intros i w.
  - exists [], w. constructor.
  - destruct (Hbody i x w) as (b & w1 & Hb).
    destruct (IH (S i) w1) as (bs & w' & Hr).
    exists (b :: bs), w'. econstructor; eassumption.
Qed.

Lemma uniform_track_duration d clips :
  Forall (fun c => seg_duration c == d) clips ->
  track_duration clips == inject_Z (Z.of_nat (List.length clips)) * d.
Proof.
  induction 1 as [| c clips Hc _ IH].
  - cbn. ring.
  - cbn [track_duration fold_right List.length].
    fold (track_duration clips). rewrite Hc, IH, Nat2Z.inj_succ.
    unfold Z.succ. rewrite inject_Z_plus. ring.
Qed.

Lemma fallback_slide_is_fallback query dpc w c w' :
  fallback_slide query dpc w = (Ok c, w') ->
  fallback_of query dpc c /\ seg_duration c == dpc.
Proof.
  destruct (fallback_slide_returns query dpc w) as (s & w2 & Hs & Hcreate & Hd).
  rewrite Hs. intros [= <- <-]. split.
  - exists s, w, w2. auto.
  - cbn [seg_duration]. rewrite Hd. reflexivity.
Qed.

(** Whatever a beat returns lasts the allotted duration. *)
Lemma footage_segment_duration self dpc i query w c w' :
  footage_segment self dpc i query w = (Ok c, w') -> seg_duration c == dpc.
Proof.
  unfold footage_segment, bind at 1.
  destruct (search_pexels_videos self query 3 w) as [[videos | e] w1];
    [| discriminate].
  destruct videos as [| first others];
    [intros H; exact (proj2 (fallback_slide_is_fallback _ _ _ _ _ H)) |].
  destruct (files_truthy (video_files first));
    [| intros H; exact (proj2 (fallback_slide_is_fallback _ _ _ _ _ H))].
  unfold bind at 1, lift at 1.
  destruct (select_variant _) as [v | e]; [| discriminate].
  unfold bind at 1, lift at 1.
  destruct (link_of v) as [url | e]; [| discriminate].
  unfold bind at 1.
  destruct (download_video self url _ w1) as [[[path |] | e] w2];
    [| intros H; exact (proj2 (fallback_slide_is_fallback _ _ _ _ _ H))
     | discriminate].
  unfold bind.
  destruct (video_file_clip path w2) as [[d | e] w3]; [| discriminate].
  destruct (Qlt_le_dec d dpc); unfold ret; intros [= <- <-].
  - reflexivity.
  - apply subclip_from_zero.
Qed.

(** A beat returns when the provider's entries are complete and the
    downloaded files open. *)
Lemma footage_segment_returns self dpc i query w :
  links_present self -> clips_open ->
  exists c w', footage_segment self dpc i query w = (Ok c, w').
Proof.
  intros Hlinks Hclips.
  assert (Hfallback : forall w0, exists c w',
             fallback_slide query dpc w0 = (Ok c, w')).
  { intros w0. destruct (fallback_slide_returns query dpc w0)
      as (s & w' & Hs & _). eauto. }
  destruct (search_returns self query 3 w) as (videos & w1 & Hsearch).
  destruct videos as [| first others].
  - rewrite (footage_segment_search_empty _ _ _ _ _ _ Hsearch). apply Hfallback.
  - destruct (files_truthy (video_files first)) eqn:Hfiles.
    + destruct (video_files first) as [[| file files] |] eqn:Hvf;
        try discriminate.
      destruct (select_variant (file :: files)) as [v | e] eqn:Hsel.
      2:{ revert Hsel. unfold select_variant.
          destruct (find quality_is_hd (file :: files)); discriminate. }
      destruct (Hlinks _ _ _ _ _ _ _ Hsearch Hvf Hsel) as (url & Hurl).
      rewrite (footage_segment_download _ dpc i _ _ _ _ _ _ _ _
                 Hsearch Hvf Hsel Hurl).
      destruct (download_returns self url
                  ("clip_" ++ PyStr.of_nat i ++ ".mp4") w1)
        as (r & w2 & Hdown & _).
      rewrite (bind_ok _ _ _ _ _ Hdown). destruct r as [path |].
      * destruct (Hclips path w2) as (d & w3 & Hclip).
        rewrite (bind_ok _ _ _ _ _ Hclip).
        destruct (Qlt_le_dec d dpc); eexists _, _; reflexivity.
      * apply Hfallback.
    + rewrite (footage_segment_no_files _ _ _ _ _ _ _ _ Hsearch Hfiles).
      apply Hfallback.
Qed.

Lemma composer_rounds self audio_path script w T w1 v w' :
  audio_file_clip audio_path w = (Ok T, w1) ->
  create_video_with_pexels self audio_path script w = (Ok v, w') ->
  rounds (footage_segment self (T / inject_Z 8)) 0 queries w1 (video_track v) w'
  /\ video_audio v = {| audio_path := audio_path; audio_duration := T |}.
Proof.
  intros Haudio. unfold create_video_with_pexels.
  rewrite (bind_ok _ _ _ _ _ Haudio). unfold bind.
  change (inject_Z (Z.of_nat (List.length queries))) with (inject_Z 8).
  destruct (for_enumerate _ 0 queries w1) as [[clips | e] w2] eqn:Hloop;
    [| discriminate].
  unfold ret. intros [= <- <-]. cbn [video_track video_audio].
  split; [apply for_enumerate_rounds; exact Hloop | reflexivity].
Qed.

Lemma composer_of_rounds self audio_path script w T w1 clips w' :
  audio_file_clip audio_path w = (Ok T, w1) ->
  rounds (footage_segment self (T / inject_Z 8)) 0 queries w1 clips w' ->
  create_video_with_pexels self audio_path script w
  = (Ok {| video_track := clips;
           video_audio := {| audio_path := audio_path;
                             audio_duration := T |} |}, w').
Proof.
  intros Haudio Hrounds. unfold create_video_with_pexels.
  rewrite (bind_ok _ _ _ _ _ Haudio).
  change (inject_Z (Z.of_nat (List.length queries))) with (inject_Z 8).
  apply for_enumerate_rounds in Hrounds.
  rewrite (bind_ok _ _ _ _ _ Hrounds). reflexivity.
Qed.

Lemma eight_shares T clips :
  List.length clips = 8%nat ->
  Forall (fun c => seg_duration c == T / inject_Z 8) clips ->
  track_duration clips == T.
Proof.
  intros Hlen Hall. rewrite (uniform_track_duration _ _ Hall), Hlen.
  unfold inject_Z. cbn [Z.of_nat Pos.of_succ_nat Pos.succ]. field.
Qed.

(** C2: footage mode gives every query one segment of an equal share.
    When the audio lasts [T], a track the composer returns has exactly
    one segment per query of the list of eight, produced in query order,
    each lasting [T / 8], so the track lasts [T]; and the composer does
    return a track when the provider's entries carry their links and the
    downloaded files open as videos. *)
Theorem footage_track_shares_audio (self : generator)
    (audio_path script : string) (w : World) (T : Q) (w1 : World) :
  audio_file_clip audio_path w = (Ok T, w1) ->
  List.length queries = 8%nat
  /\ (forall v w',
         create_video_with_pexels self audio_path script w = (Ok v, w') ->
         rounds (footage_segment self (T / inject_Z 8)) 0 queries w1
           (video_track v) w'
         /\ List.length (video_track v) = List.length queries
         /\ Forall (fun c => seg_duration c == T / inject_Z 8) (video_track v)
         /\ track_duration (video_track v) == T)
  /\ (links_present self -> clips_open ->
      exists v w',
        create_video_with_pexels self audio_path script w = (Ok v, w')).
Proof.
  intros Haudio. split; [reflexivity |]. split.
  - intros v w' Hrun.
    destruct (composer_rounds _ _ _ _ _ _ _ _ Haudio Hrun) as [Hrounds _].
    pose proof (rounds_length _ _ _ _ _ _ Hrounds) as Hlen.
    assert (Hall : Forall (fun c => seg_duration c == T / inject_Z 8)
                     (video_track v)).
    { pose proof (rounds_all (footage_segment self (T / inject_Z 8))
                    (fun _ c => seg_duration c == T / inject_Z 8)
                    (fun i q w0 c w0' H =>
                       footage_segment_duration _ _ _ _ _ _ _ H)
                    _ _ _ _ _ Hrounds) as Hpairs.
      clear - Hpairs. induction Hpairs; constructor; assumption. }
    split; [exact Hrounds |]. split; [exact Hlen |]. split; [exact Hall |].
    apply eight_shares; [rewrite Hlen; reflexivity | exact Hall].
  - intros Hlinks Hclips.
    destruct (rounds_exist (footage_segment self (T / inject_Z 8))
                (fun i q w0 => footage_segment_returns self _ i q w0
                                 Hlinks Hclips) queries 0%nat w1)
      as (clips & w' & Hrounds).
    eexists _, w'. exact (composer_of_rounds _ _ _ _ _ _ _ _ Haudio Hrounds).
Qed.

Lemma unavailable_beat self dpc i query w w1 :
  footage_unavailable self i query w w1 ->
  exists s w',
    footage_segment self dpc i query w = (Ok (SlideClip s), w')
    /\ create_text_slide (PyStr.title query) dpc default_size
         default_fontsize default_color default_bg_color w1 = (Ok s, w')
    /\ slide_duration s = dpc.
Proof.
  intros Hun. rewrite (footage_unavailable_fallback _ dpc _ _ _ _ Hun).
  apply fallback_slide_returns.
Qed.

Lemma all_unavailable_rounds self dpc :
  (forall i query w, exists w1, footage_unavailable self i query w w1) ->
  forall items i w, exists clips w',
    rounds (footage_segment self dpc) i items w clips w'
    /\ Forall2 (fun query clip => fallback_of query dpc clip) items clips.
Proof.
  intros Hun. induction items as [| query rest IH]; intros i w.
  - exists [], w. split; constructor.
  - destruct (Hun i query w) as (w1 & Hbeat).
    destruct (unavailable_beat self dpc _ _ _ _ Hbeat) as (s & w2 & Hseg & Hs & Hd).
    destruct (IH (S i) w2) as (clips & w' & Hrounds & Hall).
    exists (SlideClip s :: clips), w'. split.
    + econstructor; eassumption.
    + constructor; [| exact Hall]. exists s, w1, w2. auto.
Qed.

(** C4: a beat without footage gets exactly one fallback slide.  When
    the search of a beat returns nothing, or its first result has no file
    variants, or the download of the chosen variant fails, the beat's one
    segment is the slide of the query in title case, held for the
    allotted duration; and when that happens to all eight beats the track
    is eight such slides, in query order, titled as listed. *)
Theorem unavailable_footage_falls_back (self : generator) :
  (forall dpc i query w w1,
      footage_unavailable self i query w w1 ->
      exists s w',
        footage_segment self dpc i query w = (Ok (SlideClip s), w')
        /\ create_text_slide (PyStr.title query) dpc default_size
             default_fontsize default_color default_bg_color w1 = (Ok s, w')
        /\ slide_duration s = dpc)
  /\ (forall audio_path script w T w1,
         audio_file_clip audio_path w = (Ok T, w1) ->
         (forall i query w0, exists w0', footage_unavailable self i query w0 w0') ->
         exists v w',
           create_video_with_pexels self audio_path script w = (Ok v, w')
           /\ List.length (video_track v) = 8%nat
           /\ Forall2 (fun query clip => fallback_of query (T / inject_Z 8) clip)
                queries (video_track v))
  /\ map PyStr.title queries
     = [ "Coffee Shop Busy"; "Coffee Barista Working";
         "People Waiting In Line"; "Mobile Phone Ordering";
         "Artificial Intelligence"; "Coffee Preparation";
         "Happy Customers Coffee"; "Business Success" ].
Proof.
  split; [intros dpc i query w w1; apply unavailable_beat |].
  split; [| reflexivity].
  intros audio_path script w T w1 Haudio Hun.
  destruct (all_unavailable_rounds self (T / inject_Z 8) Hun queries 0%nat w1)
    as (clips & w' & Hrounds & Hall).
  eexists _, w'.
  split; [exact (composer_of_rounds _ _ _ _ _ _ _ _ Haudio Hrounds) |].
  cbn [video_track]. split; [| exact Hall].
  exact (rounds_length _ _ _ _ _ _ Hrounds).
Qed.

(** *** Strategy selection *)

Lemma strip_truthy_iff s : PyStr.truthy s = true <-> s <> EmptyString.
Proof. destruct s; simpl; split; congruence. Qed.

(** C5 (as amended): the strategy is footage mode exactly when the flag
    is set and a non-empty key is configured, and slide-only mode
    otherwise; the video so composed is the one that is exported; and
    [main] sets the flag, together with the key, exactly when the typed
    credential is non-empty once stripped, so that an omitted credential
    runs the pipeline in slide-only mode and a given one in footage
    mode. *)
Theorem strategy_selection :
  (forall self audio_path script,
      key_truthy (pexels_api_key self) = true ->
      compose_video self audio_path script true
      = create_video_with_pexels self audio_path script)
  /\ (forall self audio_path script use_pexels,
         use_pexels = false \/ key_truthy (pexels_api_key self) = false ->
         compose_video self audio_path script use_pexels
         = create_video_without_pexels self audio_path script)
  /\ (forall self script use_pexels w audio_path w1 v w2,
         generate_audio self script "audio.mp3" w = (Ok audio_path, w1) ->
         compose_video self audio_path script use_pexels w1 = (Ok v, w2) ->
         generate_video self script use_pexels w
         = bind (write_videofile v
                   (path_join (output_dir self) "beanflow_pitch.mp4"))
             (fun _ => ret (path_join (output_dir self) "beanflow_pitch.mp4"))
             w2)
  /\ (forall script w g w0 typed w1,
         new_generator "beanflow_output" w = (Ok g, w0) ->
         input prompt w0 = (Ok typed, w1) ->
         (PyStr.strip typed = EmptyString ->
          main script w = generate_video g script false w1
          /\ forall audio_path,
              compose_video g audio_path script false
              = create_video_without_pexels g audio_path script)
         /\ (PyStr.strip typed <> EmptyString ->
             let keyed := set_pexels_api_key g (PyStr.strip typed) in
             main script w = generate_video keyed script true w1
             /\ forall audio_path,
                 compose_video keyed audio_path script true
                 = create_video_with_pexels keyed audio_path script)).
Proof.
  split.
  { intros self audio_path script Hkey. unfold compose_video.
    rewrite Hkey. reflexivity. }
  split.
  { intros self audio_path script use_pexels [-> | Hkey]; unfold compose_video.
    - reflexivity.
    - rewrite Hkey, andb_false_r. reflexivity. }
  split.
  { intros self script use_pexels w audio_path w1 v w2 Haudio Hcompose.
    unfold generate_video.
    rewrite (bind_ok _ _ _ _ _ Haudio), (bind_ok _ _ _ _ _ Hcompose).
    reflexivity. }
  intros script w g w0 typed w1 Hnew Hinput. unfold main.
  rewrite (bind_ok _ _ _ _ _ Hnew), (bind_ok _ _ _ _ _ Hinput). split.
  - intros Hempty. rewrite Hempty. cbn [PyStr.truthy].
    split; reflexivity.
  - intros Hgiven. apply strip_truthy_iff in Hgiven.
    rewrite Hgiven. split; [reflexivity |].
    intros audio_path. unfold compose_video, set_pexels_api_key.
    cbn [pexels_api_key key_truthy]. rewrite Hgiven. reflexivity.
Qed.

(** ** Further properties of the client *)

(** X1: a search that succeeds hands the provider's list on unchanged.
    With a key configured, an answer that is no HTTP error and decodes to a
    JSON object gives exactly the object's ["videos"] list, in the
    provider's order and whatever [per_page] asked for, and the empty list
    when the object has no such member. *)
Theorem search_returns_provider_list (self : generator) (key query : string)
    (per_page : Z) (w : World) (r : response) (w' : World)
    (videos : option (list video)) :
  pexels_api_key self = Some key ->
  PyStr.truthy key = true ->
  requests_get (search_request key query per_page) w = (Ok r, w') ->
  raise_for_status r = Ok tt ->
  json_body r = Ok (JObject videos) ->
  search_pexels_videos self query per_page w
  = (Ok (match videos with Some vs => vs | None => [] end), w').
Proof.
  intros Hkey Htruthy Hget Hstatus Hjson.
  rewrite (search_with_key self key query per_page Hkey Htruthy).
  apply try_except_ok. unfold search_body.
  rewrite (bind_ok _ _ _ _ _ Hget). unfold bind, lift.
  rewrite Hstatus, Hjson. destruct videos; reflexivity.
Qed.

Lemma write_one path (next : result chunk) w :
  (c <- lift next ;; file_write path c)%py w
  = match next with
    | Ok c => file_write path c w
    | Raise e => (Raise e, w)
    end.
Proof. destruct next; reflexivity. Qed.

Lemma for_each_writes path chunks :
  forall w, write_stream path (map Ok chunks) w
            = for_each (file_write path) chunks w.
Proof.
  unfold write_stream. induction chunks as [| c chunks IH]; intros w;
    [reflexivity |].
  cbn [map for_each].
  pose proof (write_one path (Ok c) w) as Hone. cbn beta iota in Hone.
  destruct (file_write path c w) as [[[] | e] w1] eqn:Hw.
  - rewrite (bind_ok _ _ _ _ _ Hone), (bind_ok _ _ _ _ _ Hw). apply IH.
  - rewrite (bind_raise _ _ _ _ _ Hone), (bind_raise _ _ _ _ _ Hw).
    reflexivity.
Qed.

Lemma write_stream_ok_chunks path chunks :
  forall w w', write_stream path chunks w = (Ok tt, w') ->
    exists cs, chunks = map Ok cs.
Proof.
  unfold write_stream. induction chunks as [| next chunks IH]; intros w w'.
  - exists []. reflexivity.
  - cbn [for_each]. pose proof (write_one path next w) as Hone.
    destruct next as [c | e].
    + destruct (file_write path c w) as [[[] | e] w1] eqn:Hw.
      * rewrite (bind_ok _ _ _ _ _ Hone). intros Hrest.
        destruct (IH _ _ Hrest) as (cs & ->). exists (c :: cs). reflexivity.
      * rewrite (bind_raise _ _ _ _ _ Hone). discriminate.
    + rewrite (bind_raise _ _ _ _ _ Hone). discriminate.
Qed.

Lemma for_each_content path :
  write_appends ->
  forall cs w w' bytes,
    for_each (file_write path) cs w = (Ok tt, w') ->
    file_content w path = Some bytes ->
    file_content w' path = Some (bytes ++ concat cs)%list.
Proof.
  intros Happend. induction cs as [| c cs IH]; intros w w' bytes.
  - cbn. unfold ret. intros [= <-] Hc. rewrite app_nil_r. exact Hc.
  - cbn [for_each concat]. unfold bind at 1.
    destruct (file_write path c w) as [[[] | e] w1] eqn:Hw; [| discriminate].
    intros Hrest Hc. rewrite app_assoc.
    exact (IH _ _ _ Hrest (Happend _ _ _ _ _ Hw Hc)).
Qed.

(** The steps a download went through when it returned a result for the
    response [r]. *)
Lemma download_steps self url filename w r w1 res w' :
  requests_get (download_request url) w = (Ok r, w1) ->
  download_video self url filename w = (Ok res, w') ->
  let filepath := path_join (output_dir self) filename in
  match res with
  | Some p =>
      p = filepath
      /\ exists w2 w3,
          open_wb filepath w1 = (Ok tt, w2)
          /\ write_stream filepath (body_chunks r) w2 = (Ok tt, w3)
          /\ file_close filepath w3 = (Ok tt, w')
  | None => True
  end.
Proof.
  intros Hget. unfold download_video, try_except, download_body.
  unfold bind at 1. unfold bind at 1. rewrite Hget.
  unfold bind at 1, lift at 1.
  destruct (raise_for_status r) as [[] | e0];
    [| unfold ret; intros [= <- <-]; exact I].
  unfold bind at 1.
  destruct (open_wb _ w1) as [[[] | e1] w2] eqn:Hopen;
    [| unfold ret; intros [= <- <-]; exact I].
  unfold bind at 1, try_finally.
  destruct (write_stream _ (body_chunks r) w2) as [wr w3] eqn:Hwrite.
  destruct (file_close _ w3) as [[[] | e3] w4] eqn:Hclose;
    [| unfold ret; intros [= <- <-]; exact I].
  destruct wr as [[] | e2]; unfold ret; intros [= <- <-]; [| exact I].
  split; [reflexivity |]. exists w2, w3. auto.
Qed.

(** X2: a download that returns a path has stored what it was served.
    On a file system where opening for writing empties the file, a write
    appends and closing changes nothing, whenever [download_video] returns
    a path for the response [r], every chunk of [r] arrived and the file
    at that path holds exactly the chunks of [r], in order. *)
Theorem download_stores_the_body (self : generator) (url filename : string)
    (w : World) (r : response) (w1 : World) (p : string) (w' : World) :
  open_truncates -> write_appends -> close_keeps_content ->
  requests_get (download_request url) w = (Ok r, w1) ->
  download_video self url filename w = (Ok (Some p), w') ->
  exists cs,
    body_chunks r = map Ok cs
    /\ p = path_join (output_dir self) filename
    /\ file_content w' p = Some (concat cs).
Proof.
  intros Hopen Happend Hclose Hget Hrun.
  destruct (download_steps _ _ _ _ _ _ _ _ Hget Hrun)
    as (-> & w2 & w3 & Ho & Hw & Hc).
  destruct (write_stream_ok_chunks _ _ _ _ Hw) as (cs & Hcs).
  exists cs. split; [exact Hcs |]. split; [reflexivity |].
  rewrite (Hclose _ _ _ _ Hc).
  rewrite Hcs, for_each_writes in Hw.
  exact (for_each_content _ Happend _ _ _ _ Hw (Hopen _ _ _ Ho)).
Qed.


Lemma write_stream_breaks path e rest :
  forall cs w w',
    for_each (file_write path) cs w = (Ok tt, w') ->
    write_stream path (map Ok cs ++ Raise e :: rest)%list w = (Raise e, w').
Proof.
  unfold write_stream. induction cs as [| c cs IH]; intros w w'.
  - cbn [for_each map app]. unfold ret. intros [= <-].
    apply bind_raise. reflexivity.
  - cbn [for_each map app]. pose proof (write_one path (Ok c) w) as Hone.
    cbn beta iota in Hone.
    destruct (file_write path c w) as [[[] | e1] w1] eqn:Hw.
    + rewrite (bind_ok _ _ _ _ _ Hw), (bind_ok _ _ _ _ _ Hone). apply IH.
    + rewrite (bind_raise _ _ _ _ _ Hw). discriminate.
Qed.

Lemma download_after_open self url filename w r w1 w2 wr w3 :
  requests_get (download_request url) w = (Ok r, w1) ->
  raise_for_status r = Ok tt ->
  open_wb (path_join (output_dir self) filename) w1 = (Ok tt, w2) ->
  write_stream (path_join (output_dir self) filename) (body_chunks r) w2
  = (wr, w3) ->
  download_video self url filename w
  = match file_close (path_join (output_dir self) filename) w3, wr with
    | (Ok _, w4), Ok _ =>
        (Ok (Some (path_join (output_dir self) filename)), w4)
    | (_, w4), _ => (Ok None, w4)
    end.
Proof.
  intros Hget Hstatus Hopen Hwrite.
  unfold download_video, try_except, download_body.
  unfold bind at 1. unfold bind at 1. rewrite Hget.
  unfold bind at 1, lift at 1. rewrite Hstatus.
  unfold bind at 1. rewrite Hopen.
  unfold bind at 1, try_finally. rewrite Hwrite.
  destruct (file_close _ w3) as [[[] | e3] w4]; destruct wr as [[] | e2];
    reflexivity.
Qed.

(** X3: a stream that breaks leaves the partial file behind.  When the
    transport fails after the chunks [cs] were served and written, the
    download returns [None], and the file still holds those chunks:
    nothing removes it. *)
Theorem broken_stream_leaves_partial_file (self : generator)
    (url filename : string) (w : World) (r : response) (w1 w2 w3 : World)
    (cs : list chunk) (e : exn) (rest : list (result chunk)) :
  open_truncates -> write_appends -> close_keeps_content ->
  requests_get (download_request url) w = (Ok r, w1) ->
  raise_for_status r = Ok tt ->
  open_wb (path_join (output_dir self) filename) w1 = (Ok tt, w2) ->
  body_chunks r = (map Ok cs ++ Raise e :: rest)%list ->
  for_each (file_write (path_join (output_dir self) filename)) cs w2
  = (Ok tt, w3) ->
  exists w',
    download_video self url filename w = (Ok None, w')
    /\ file_content w' (path_join (output_dir self) filename)
       = Some (concat cs).
Proof.
  intros Htrunc Happend Hclose Hget Hstatus Hopen Hbody Hwrites.
  pose proof (write_stream_breaks _ e rest _ _ _ Hwrites) as Hbreak.
  rewrite <- Hbody in Hbreak.
  rewrite (download_after_open _ _ _ _ _ _ _ _ _ Hget Hstatus Hopen Hbreak).
  destruct (file_close _ w3) as [rc w4] eqn:Hc.
  exists w4. split; [destruct rc as [[] | ec]; reflexivity |].
  rewrite (Hclose _ _ _ _ Hc).
  exact (for_each_content _ Happend _ _ _ _ Hwrites (Htrunc _ _ _ Hopen)).
Qed.

(** X4: a file that was opened is closed on every path.  Once the
    request and the opening of the file succeeded, the world a download
    leaves is the one the closing of the file leaves, after the writes
    ended well or badly; and the download returns the path only when the
    writes and the closing both succeeded. *)
Theorem download_always_closes (self : generator) (url filename : string)
    (w : World) (r : response) (w1 w2 : World) (wr : result unit) (w3 : World) :
  requests_get (download_request url) w = (Ok r, w1) ->
  raise_for_status r = Ok tt ->
  open_wb (path_join (output_dir self) filename) w1 = (Ok tt, w2) ->
  write_stream (path_join (output_dir self) filename) (body_chunks r) w2
  = (wr, w3) ->
  let closing := file_close (path_join (output_dir self) filename) w3 in
  snd (download_video self url filename w) = snd closing
  /\ (fst (download_video self url filename w)
      = Ok (if is_ok wr && is_ok (fst closing)
            then Some (path_join (output_dir self) filename)
            else None)).
Proof.
  intros Hget Hstatus Hopen Hwrite closing.
  rewrite (download_after_open _ _ _ _ _ _ _ _ _ Hget Hstatus Hopen Hwrite).
  subst closing.
  destruct (file_close _ w3) as [[[] | e3] w4]; destruct wr as [[] | e2];
    split; reflexivity.
Qed.


(** ** Further properties of the slide renderer *)

Lemma layout_slide_shape f size text duration W H color bg_color :
  match wrap_paragraphs (W - 200) size [] (PyStr.split newline text) with
  | Ok lines =>
      exists s,
        layout_slide f size text duration (W, H) color bg_color = Ok s
        /\ slide_ops s
           = draw_lines W f (line_height_of size)
               ((H - Z.of_nat (List.length lines) * line_height_of size) / 2)
               lines
        /\ slide_duration s = duration /\ slide_font s = f
        /\ slide_size s = (W, H)
  | Raise e => layout_slide f size text duration (W, H) color bg_color = Raise e
  end.
Proof.
  unfold layout_slide. cbn [fst snd].
  destruct (wrap_paragraphs _ size [] _) as [lines | e]; cbn [result_bind];
    [| reflexivity].
  eexists. split; [reflexivity |]. cbn. auto.
Qed.

Lemma split_nonempty sep s : PyStr.split sep s <> [].
Proof.
  destruct s as [| c s]; cbn [PyStr.split]; [discriminate |].
  destruct (Ascii.eqb c sep); [discriminate |].
  destruct (PyStr.split sep s); discriminate.
Qed.

Lemma wrap_paragraph_adds max_width size paragraph added :
  wrap_paragraph max_width size paragraph = Ok added ->
  (1 <= List.length added)%nat.
Proof.
  unfold wrap_paragraph.
  destruct (PyStr.truthy (PyStr.strip paragraph)).
  - destruct (chars_per_line max_width size) as [n | e]; [| discriminate].
    cbn [result_bind]. destruct (fill paragraph n) as [wrapped | e];
      [| discriminate].
    cbn [result_bind]. intros [= <-].
    pose proof (split_nonempty newline wrapped).
    destruct (PyStr.split newline wrapped); [congruence | cbn; lia].
  - intros [= <-]. cbn. lia.
Qed.

Lemma wrap_paragraphs_grow max_width size paragraphs :
  forall lines out,
    wrap_paragraphs max_width size lines paragraphs = Ok out ->
    (List.length lines + List.length paragraphs <= List.length out)%nat.
Proof.
  induction paragraphs as [| p ps IH]; intros lines out.
  - cbn. intros [= <-]. lia.
  - cbn [wrap_paragraphs].
    destruct (wrap_paragraph max_width size p) as [added | e] eqn:Hp;
      [| discriminate].
    cbn [result_bind]. intros Hrest. apply IH in Hrest.
    pose proof (wrap_paragraph_adds _ _ _ _ Hp).
    rewrite length_app in Hrest. cbn [List.length]. lia.
Qed.

Lemma draw_lines_length canvas_width f h lines :
  forall y, List.length (draw_lines canvas_width f h y lines)
            = List.length lines.
Proof.
  induction lines as [| line rest IH]; intros y; cbn; [| rewrite IH];
    reflexivity.
Qed.




Lemma wrap_paragraphs_refused max_width size e0 :
  (forall p, nonblank p -> wrap_paragraph max_width size p = Raise e0) ->
  forall paragraphs lines,
    match wrap_paragraphs max_width size lines paragraphs with
    | Ok _ => ~ Exists nonblank paragraphs
    | Raise e => Exists nonblank paragraphs /\ e = e0
    end.
Proof.
  intros Hrefuse. induction paragraphs as [| p ps IH]; intros lines.
  - cbn. intros H. inversion H.
  - cbn [wrap_paragraphs].
    destruct (PyStr.truthy (PyStr.strip p)) eqn:Hp.
    + rewrite (Hrefuse p Hp). cbn [result_bind]. split; [| reflexivity].
      left. exact Hp.
    + rewrite (wrap_paragraph_blank _ _ _ Hp). cbn [result_bind].
      specialize (IH (lines ++ [EmptyString])%list).
      destruct (wrap_paragraphs max_width size _ ps) as [out | e].
      * intros Hex. inversion Hex as [? ? Hhere | ? ? Hlater]; subst;
          [unfold nonblank in Hhere; congruence | exact (IH Hlater)].
      * destruct IH as [Hex ->]. split; [right; exact Hex | reflexivity].
Qed.

(** X7: when the layout fails.  [layout_slide] raises exactly when some
    paragraph has something to wrap and the wrap width cannot be used: the
    font size in effect is zero, which raises [ZeroDivisionError], or the
    width comes out zero or negative, which [textwrap] refuses with a
    [ValueError].  Nothing else makes it fail. *)
Theorem layout_failure_characterised (f : font) (size : Z) (text : string)
    (duration : Q) (W H : Z) (color bg_color : rgb) (e : exn) :
  layout_slide f size text duration (W, H) color bg_color = Raise e
  <-> Exists nonblank (PyStr.split newline text)
      /\ ((size = 0%Z /\ e = ZeroDivisionError)
          \/ (exists n, chars_per_line (W - 200) size = Ok n /\ (n <= 0)%Z
                        /\ e = ValueError "invalid width (must be > 0)")).
Proof.
  pose proof (layout_slide_shape f size text duration W H color bg_color)
    as Hshape.
  assert (Hzero : chars_per_line (W - 200) size = Raise ZeroDivisionError
                  <-> size = 0%Z).
  { unfold chars_per_line.
    destruct (Qeq_bool (inject_Z size * (6 # 10)) 0) eqn:Hq.
    - split; [intros _ | reflexivity]. apply Qeq_bool_iff in Hq.
      unfold Qeq in Hq. cbn in Hq. lia.
    - split; [discriminate |]. intros ->. discriminate Hq. }
  destruct (chars_per_line (W - 200) size) as [n | e0] eqn:Hn.
  - destruct (Z_lt_le_dec 0 n) as [Hpos | Hle].
    + rewrite (wrap_paragraphs_ok _ _ _ Hn Hpos) in Hshape.
      destruct Hshape as (s & -> & _). split; [discriminate |].
      intros (_ & [[Hsize _] | (m & [= <-] & Hm & _)]); [| lia].
      apply Hzero in Hsize. discriminate.
    + pose proof (wrap_paragraphs_refused (W - 200) size
                    (ValueError "invalid width (must be > 0)")) as Href.
      specialize (Href (fun p Hp =>
        ltac:(unfold wrap_paragraph, nonblank in *; rewrite Hp, Hn;
              cbn [result_bind]; unfold fill;
              destruct (Z.leb_spec n 0); [reflexivity | lia]))
        (PyStr.split newline text) []).
      destruct (wrap_paragraphs _ size [] _) as [lines | e1].
      * destruct Hshape as (s & -> & _). split; [discriminate |].
        intros (Hex & _). contradiction.
      * rewrite Hshape. destruct Href as [Hex ->]. split.
        -- intros [= <-]. split; [exact Hex |]. right. exists n. auto.
        -- intros (_ & [[Hsize _] | (m & _ & _ & ->)]); [| reflexivity].
           apply Hzero in Hsize. discriminate.
  - assert (He0 : e0 = ZeroDivisionError).
    { revert Hn. unfold chars_per_line.
      destruct (Qeq_bool _ 0); [intros [= <-]; reflexivity | discriminate]. }
    subst e0.
    pose proof (wrap_paragraphs_refused (W - 200) size ZeroDivisionError) as Href.
    specialize (Href (fun p Hp =>
      ltac:(unfold wrap_paragraph, nonblank in *; rewrite Hp, Hn;
            reflexivity))
      (PyStr.split newline text) []).
    destruct (wrap_paragraphs _ size [] _) as [lines | e1].
    + destruct Hshape as (s & -> & _). split; [discriminate |].
      intros (Hex & _). contradiction.
    + rewrite Hshape. destruct Href as [Hex ->]. split.
      * intros [= <-]. split; [exact Hex |]. left.
        split; [apply Hzero; reflexivity | reflexivity].
      * intros (_ & [[_ ->] | (m & [=] & _)]). reflexivity.
Qed.


Lemma line_height_nonneg size : (0 <= size)%Z -> (0 <= line_height_of size)%Z.
Proof.
  intros Hsize. rewrite line_height_quot. apply Z.quot_pos; lia.
Qed.

(** X8: where the lines land on the canvas.  For a slide that is
    rendered at a font size that is not negative: when the block of lines
    is no taller than the canvas, every line lies between its top and its
    bottom; when the block is taller, nothing shrinks or clips it and the
    first line starts above the canvas; and a line no wider than the
    canvas lies between its left and right edges. *)
Theorem lines_on_the_canvas (f : font) (size : Z) (text : string)
    (duration : Q) (W H : Z) (color bg_color : rgb) (s : slide) :
  layout_slide f size text duration (W, H) color bg_color = Ok s ->
  (0 <= size)%Z ->
  let h := line_height_of size in
  let block := (Z.of_nat (List.length (slide_ops s)) * h)%Z in
  (forall i op,
      nth_error (slide_ops s) i = Some op ->
      ((block <= H)%Z -> (0 <= op_y op /\ op_y op + h <= H)%Z)
      /\ ((text_width f (op_line op) <= W)%Z ->
          (0 <= op_x op /\ op_x op + text_width f (op_line op) <= W)%Z))
  /\ ((H < block)%Z ->
      exists op, nth_error (slide_ops s) 0 = Some op /\ (op_y op < 0)%Z).
Proof.
  intros Hs Hsize h block.
  pose proof (layout_slide_shape f size text duration W H color bg_color)
    as Hshape.
  destruct (wrap_paragraphs (W - 200) size [] (PyStr.split newline text))
    as [lines | e] eqn:Hwrap; [| congruence].
  destruct Hshape as (s' & Hs' & Hops & _).
  assert (s' = s) as -> by congruence.
  pose proof (line_height_nonneg size Hsize) as Hh. fold h in Hh.
  assert (Hblock : block = (Z.of_nat (List.length lines) * h)%Z).
  { unfold block. rewrite Hops, draw_lines_length. reflexivity. }
  assert (Hdrawn : slide_ops s = draw_lines W f h ((H - block) / 2) lines)
    by (rewrite Hops, Hblock; reflexivity).
  clear Hops.
  pose proof (halves_balance (H - block)) as Hy0. cbn zeta in Hy0.
  split.
  - intros i op Hnth.
    assert (Hi : (i < List.length lines)%nat).
    { rewrite <- (draw_lines_length W f h lines ((H - block) / 2)), <- Hdrawn.
      apply nth_error_Some. congruence. }
    rewrite Hdrawn in Hnth.
    destruct (draw_lines_position _ _ _ _ _ _ _ Hnth) as [Hy Hx]. split.
    + intros Hfits. rewrite Hy. split; nia.
    + intros Hwide. pose proof (halves_balance (W - text_width f (op_line op)))
        as Hx0. cbn zeta in Hx0. rewrite Hx. lia.
  - intros Htall. destruct lines as [| line rest].
    + apply wrap_paragraphs_grow in Hwrap.
      pose proof (split_nonempty newline text).
      destruct (PyStr.split newline text); [congruence | cbn in Hwrap; lia].
    + rewrite Hdrawn. cbn [draw_lines nth_error]. eexists.
      split; [reflexivity |]. cbn [op_y]. lia.
Qed.


(** ** Further properties of the composer *)









(** X10: what can stop slide-only mode.  [create_video_without_pexels]
    raises exactly when the measuring of the audio raises, with that
    exception: the rendering of the twelve scene slides cannot fail. *)
Theorem slide_only_fails_only_on_audio (self : generator)
    (audio_path script : string) (w : World) (e : exn) (w' : World) :
  create_video_without_pexels self audio_path script w = (Raise e, w')
  <-> audio_file_clip audio_path w = (Raise e, w').
Proof.
  unfold create_video_without_pexels. split.
  - unfold bind at 1.
    destruct (audio_file_clip audio_path w) as [[T | e0] w1];
      [| intros [= <- <-]; reflexivity].
    destruct (scene_slides_returns (T / inject_Z total_scene_duration) scenes w1)
      as (clips & w2 & Hclips & _).
    rewrite (bind_ok _ _ _ _ _ Hclips). discriminate.
  - intros Haudio. apply bind_raise. exact Haudio.
Qed.

Lemma scaled_scenes_sum T :
  fold_right Qplus 0
    (map (fun beat => inject_Z (snd beat) * (T / inject_Z total_scene_duration))
         scenes) == T.
Proof.
  change total_scene_duration with 75%Z.
  unfold scenes. cbn [map snd fold_right]. unfold inject_Z. field.
Qed.

Lemma slide_only_returned self audio_path script w v w' :
  create_video_without_pexels self audio_path script w = (Ok v, w') ->
  exists T w1,
    audio_file_clip audio_path w = (Ok T, w1)
    /\ video_audio v = {| audio_path := audio_path; audio_duration := T |}
    /\ map seg_duration (video_track v)
       = map (fun beat => inject_Z (snd beat)
                          * (T / inject_Z total_scene_duration)) scenes.
Proof.
  unfold create_video_without_pexels, bind at 1.
  destruct (audio_file_clip audio_path w) as [[T | e0] w1]; [| discriminate].
  destruct (scene_slides_returns (T / inject_Z total_scene_duration) scenes w1)
    as (clips & w2 & Hclips & Hall).
  rewrite (bind_ok _ _ _ _ _ Hclips). unfold ret. intros [= <- <-].
  exists T, w1. cbn [video_audio video_track].
  split; [reflexivity |]. split; [reflexivity |].
  exact (scene_slides_durations _ _ _ Hall).
Qed.

Lemma footage_returned self audio_path script w v w' :
  create_video_with_pexels self audio_path script w = (Ok v, w') ->
  exists T w1,
    audio_file_clip audio_path w = (Ok T, w1)
    /\ video_audio v = {| audio_path := audio_path; audio_duration := T |}
    /\ List.length (video_track v) = 8%nat
    /\ Forall (fun c => seg_duration c == T / inject_Z 8) (video_track v).
Proof.
  intros Hrun.
  destruct (audio_file_clip audio_path w) as [[T | e0] w1] eqn:Haudio.
  2:{ unfold create_video_with_pexels in Hrun.
      rewrite (bind_raise _ _ _ _ _ Haudio) in Hrun. discriminate. }
  destruct (composer_rounds _ _ _ _ _ _ _ _ Haudio Hrun) as [Hrounds Haud].
  exists T, w1. split; [reflexivity |]. split; [exact Haud |].
  split; [exact (rounds_length _ _ _ _ _ _ Hrounds) |].
  pose proof (rounds_all (footage_segment self (T / inject_Z 8))
                (fun _ c => seg_duration c == T / inject_Z 8)
                (fun i q w0 c w0' H => footage_segment_duration _ _ _ _ _ _ _ H)
                _ _ _ _ _ Hrounds) as Hpairs.
  clear - Hpairs. induction Hpairs; constructor; assumption.
Qed.

(** X11: the composed track always fits the audio.  Whichever strategy
    [generate_video] picks, a video it composes carries the audio clip that
    was measured, its visual track lasts exactly as long as that audio, and
    it has eight segments in footage mode and twelve in slide-only mode. *)
Theorem composed_track_matches_audio (self : generator)
    (path script : string) (use_pexels : bool) (w : World)
    (v : final_video) (w' : World) :
  compose_video self path script use_pexels w = (Ok v, w') ->
  (exists w1,
      audio_file_clip path w = (Ok (audio_duration (video_audio v)), w1))
  /\ audio_path (video_audio v) = path
  /\ track_duration (video_track v) == audio_duration (video_audio v)
  /\ List.length (video_track v)
     = (if use_pexels && key_truthy (pexels_api_key self) then 8 else 12)%nat.
Proof.
  unfold compose_video.
  destruct (use_pexels && key_truthy (pexels_api_key self)); intros Hrun.
  - destruct (footage_returned _ _ _ _ _ _ Hrun)
      as (T & w1 & Haudio & Haud & Hlen & Hall).
    rewrite Haud. cbn [audio_duration audio_path].
    split; [exists w1; exact Haudio |]. split; [reflexivity |].
    split; [exact (eight_shares _ _ Hlen Hall) | exact Hlen].
  - destruct (slide_only_returned _ _ _ _ _ _ Hrun)
      as (T & w1 & Haudio & Haud & Hmap).
    rewrite Haud. cbn [audio_duration audio_path].
    split; [exists w1; exact Haudio |]. split; [reflexivity |].
    split.
    + rewrite track_duration_map, Hmap. apply scaled_scenes_sum.
    + rewrite <- (length_map seg_duration), Hmap, length_map. reflexivity.
Qed.

(** X12: no segment is empty.  When the measured audio has a positive
    duration, every segment of a composed video, slide or footage, lasts a
    positive time. *)
Theorem segments_last_positive_time (self : generator)
    (path script : string) (use_pexels : bool) (w : World)
    (v : final_video) (w' : World) :
  compose_video self path script use_pexels w = (Ok v, w') ->
  0 < audio_duration (video_audio v) ->
  Forall (fun c => 0 < seg_duration c) (video_track v).
Proof.
  unfold compose_video.
  destruct (use_pexels && key_truthy (pexels_api_key self)); intros Hrun.
  - destruct (footage_returned _ _ _ _ _ _ Hrun)
      as (T & w1 & _ & Haud & _ & Hall).
    rewrite Haud. cbn [audio_duration]. intros HT.
    eapply Forall_impl; [| exact Hall]. intros c Hc. rewrite Hc.
    apply Qlt_shift_div_l; [reflexivity |]. rewrite Qmult_0_l. exact HT.
  - destruct (slide_only_returned _ _ _ _ _ _ Hrun)
      as (T & w1 & _ & Haud & Hmap).
    rewrite Haud. cbn [audio_duration]. intros HT.
    assert (Hdurations : Forall (fun d => 0 < d) (map seg_duration (video_track v))).
    { rewrite Hmap. apply Forall_map.
      assert (Hnominal : Forall (fun beat => (0 < snd beat)%Z) scenes)
        by (unfold scenes; repeat constructor).
      eapply Forall_impl; [| exact Hnominal]. intros beat Hbeat. cbn beta in *.
      apply Qmult_lt_0_compat.
      - unfold Qlt, inject_Z. cbn [Qnum Qden]. lia.
      - apply Qlt_shift_div_l; [reflexivity |]. rewrite Qmult_0_l. exact HT. }
    exact (proj1 (Forall_map seg_duration (fun d => 0 < d) _) Hdurations).
Qed.



Lemma append_length (a b : string) :
  String.length (a ++ b) = (String.length a + String.length b)%nat.
Proof. induction a as [| c a IH]; cbn; [| rewrite IH]; reflexivity. Qed.

Lemma append_cancel_l (a x y : string) : a ++ x = a ++ y -> x = y.
Proof.
  induction a as [| c a IH]; cbn; [auto |]. intros [= H]. exact (IH H).
Qed.

Lemma append_cancel_r (s : string) :
  forall a b : string, a ++ s = b ++ s -> a = b.
Proof.
  induction a as [| c a IH]; intros [| d b] H.
  - reflexivity.
  - apply (f_equal String.length) in H. cbn in H.
    rewrite append_length in H. lia.
  - apply (f_equal String.length) in H. cbn in H.
    rewrite append_length in H. lia.
  - cbn in H. injection H as -> H. rewrite (IH _ H). reflexivity.
Qed.

Lemma of_nat_injective i j : PyStr.of_nat i = PyStr.of_nat j -> i = j.
Proof.
  unfold PyStr.of_nat. intros H.
  apply (f_equal NilEmpty.uint_of_string) in H.
  rewrite !NilEmpty.usu in H. injection H as H.
  apply (f_equal Nat.of_uint) in H.
  rewrite !DecimalNat.Unsigned.of_to in H. exact H.
Qed.

(** X13: every beat has a clip file of its own.  The file a footage
    segment of beat [i] plays is [clip_<i>.mp4] in the output directory,
    and the files of two different beats have different paths, so that no
    beat overwrites the clip of another. *)
Theorem beats_use_their_own_files :
  (forall self dpc i query w c w' p,
      footage_segment self dpc i query w = (Ok c, w') ->
      segment_path c = Some p ->
      p = path_join (output_dir self) ("clip_" ++ PyStr.of_nat i ++ ".mp4"))
  /\ (forall dir i j,
         path_join dir ("clip_" ++ PyStr.of_nat i ++ ".mp4")
         = path_join dir ("clip_" ++ PyStr.of_nat j ++ ".mp4") ->
         i = j).
Proof.
  split.
  - intros self dpc i query w c w' p.
    assert (Hslide : forall w0, fallback_slide query dpc w0 = (Ok c, w') ->
                                segment_path c = Some p -> False).
    { intros w0 H. destruct (fallback_slide_returns query dpc w0)
        as (s & w2 & Hs & _). rewrite Hs in H. injection H as <- _.
      discriminate. }
    unfold footage_segment, bind at 1.
    destruct (search_returns self query 3 w) as (videos & w1 & ->).
    destruct videos as [| first others];
      [intros H Hp; destruct (Hslide _ H Hp) |].
    destruct (files_truthy (video_files first));
      [| intros H Hp; destruct (Hslide _ H Hp)].
    unfold bind at 1, lift at 1.
    destruct (select_variant _) as [v | e0]; [| discriminate].
    unfold bind at 1, lift at 1.
    destruct (link_of v) as [url | e1]; [| discriminate].
    unfold bind at 1.
    destruct (download_returns self url ("clip_" ++ PyStr.of_nat i ++ ".mp4") w1)
      as (r & w2 & -> & Hr).
    destruct r as [path |];
      [| intros H Hp; destruct (Hslide _ H Hp)].
    destruct Hr as [Hr | Hr]; [discriminate |]. injection Hr as ->.
    unfold bind.
    destruct (video_file_clip _ w2) as [[d | e2] w3]; [| discriminate].
    destruct (Qlt_le_dec d dpc); unfold ret; intros [= <- <-];
      cbn [segment_path]; intros [= <-]; reflexivity.
  - intros dir i j H. unfold path_join in H.
    apply append_cancel_l in H. cbn [append] in H. injection H as H.
    apply append_cancel_r in H. exact (of_nat_injective _ _ H).
Qed.

(** ** Further properties of the pipeline *)

(** X14: a run exports or fails.  When the speech synthesis raises,
    [generate_video] raises the same exception from the same world:
    nothing is composed and nothing is exported.  When [generate_video]
    returns, it returns [beanflow_pitch.mp4] in the output directory, the
    audio was saved as [audio.mp3] there, and the composed video was
    written to the returned path. *)
Theorem generate_video_exports_or_fails (self : generator) (script : string)
    (use_pexels : bool) (w : World) :
  (forall e w',
      gtts_save script (path_join (output_dir self) "audio.mp3") w
      = (Raise e, w') ->
      generate_video self script use_pexels w = (Raise e, w'))
  /\ (forall p w',
         generate_video self script use_pexels w = (Ok p, w') ->
         p = path_join (output_dir self) "beanflow_pitch.mp4"
         /\ exists w1 v w2,
             gtts_save script (path_join (output_dir self) "audio.mp3") w
             = (Ok tt, w1)
             /\ compose_video self (path_join (output_dir self) "audio.mp3")
                  script use_pexels w1 = (Ok v, w2)
             /\ write_videofile v p w2 = (Ok tt, w')).
Proof.
  split.
  - intros e w' Hsave. unfold generate_video, generate_audio.
    apply bind_raise. apply bind_raise. exact Hsave.
  - intros p w'. unfold generate_video, generate_audio.
    unfold bind at 1. unfold bind at 1.
    destruct (gtts_save script _ w) as [[[] | e0] w1] eqn:Hsave;
      [| discriminate].
    unfold ret at 1. unfold bind at 1.
    destruct (compose_video self _ script use_pexels w1) as [[v | e1] w2]
      eqn:Hcompose; [| discriminate].
    unfold bind.
    destruct (write_videofile v _ w2) as [[[] | e2] w3] eqn:Hwrite;
      [| discriminate].
    unfold ret. intros [= <- <-]. split; [reflexivity |].
    exists w1, v, w2. auto.
Qed.

Lemma lstrip_all_whitespace s :
  all_whitespace s = true -> PyStr.lstrip s = EmptyString.
Proof.
  induction s as [| c s IH]; [reflexivity |]. cbn [all_whitespace PyStr.lstrip].
  intros H. apply andb_prop in H as [-> Hs]. exact (IH Hs).
Qed.

Lemma lstrip_head s :
  match PyStr.lstrip s with
  | EmptyString => all_whitespace s = true
  | String c _ => PyStr.isspace c = false /\ all_whitespace s = false
  end.
Proof.
  induction s as [| c s IH]; [reflexivity |]. cbn [PyStr.lstrip all_whitespace].
  destruct (PyStr.isspace c) eqn:Hc; [exact IH | auto].
Qed.

Lemma rstrip_head c s :
  PyStr.isspace c = false ->
  exists r, PyStr.rstrip (String c s) = String c r.
Proof.
  intros Hc. cbn [PyStr.rstrip]. destruct (PyStr.rstrip s); rewrite ?Hc; eauto.
Qed.

Lemma rstrip_idempotent s : PyStr.rstrip (PyStr.rstrip s) = PyStr.rstrip s.
Proof.
  induction s as [| c s IH]; [reflexivity |]. cbn [PyStr.rstrip].
  destruct (PyStr.rstrip s) as [| d r] eqn:Hr.
  - destruct (PyStr.isspace c) eqn:Hc; [reflexivity |].
    cbn [PyStr.rstrip]. rewrite Hc. reflexivity.
  - change (PyStr.rstrip (String c (String d r)))
      with (match PyStr.rstrip (String d r) with
            | EmptyString =>
                if PyStr.isspace c then EmptyString else String c EmptyString
            | String _ _ as r0 => String c r0
            end).
    rewrite IH. reflexivity.
Qed.

Lemma strip_idempotent s : PyStr.strip (PyStr.strip s) = PyStr.strip s.
Proof.
  unfold PyStr.strip. pose proof (lstrip_head s) as Hhead.
  destruct (PyStr.lstrip s) as [| c t]; [reflexivity |].
  destruct Hhead as [Hc _]. destruct (rstrip_head c t Hc) as (r & Hr).
  rewrite Hr. cbn [PyStr.lstrip]. rewrite Hc, <- Hr. apply rstrip_idempotent.
Qed.

Lemma new_generator_has_no_key dir w g w' :
  new_generator dir w = (Ok g, w') ->
  pexels_api_key g = None /\ output_dir g = dir.
Proof.
  unfold new_generator, bind. destruct (mkdir dir w) as [[[] | e] w1];
    [| discriminate].
  unfold ret. intros [= <- <-]. split; reflexivity.
Qed.

(** X15: a credential of white space only counts as omitted.  When what
    is typed at the prompt is empty or consists of white space, [main]
    configures no key and runs the pipeline with the flag off. *)
Theorem blank_credential_is_omitted (script : string) (w : World)
    (g : generator) (w0 : World) (typed_line : string) (w1 : World) :
  new_generator "beanflow_output" w = (Ok g, w0) ->
  input prompt w0 = (Ok typed_line, w1) ->
  all_whitespace typed_line = true ->
  pexels_api_key g = None
  /\ main script w = generate_video g script false w1.
Proof.
  intros Hnew Hinput Hblank.
  split; [exact (proj1 (new_generator_has_no_key _ _ _ _ Hnew)) |].
  unfold main. rewrite (bind_ok _ _ _ _ _ Hnew), (bind_ok _ _ _ _ _ Hinput).
  unfold PyStr.strip. rewrite (lstrip_all_whitespace _ Hblank). reflexivity.
Qed.

(** X16: a typed key is stored without the white space around it.  When
    what is typed has a character that is no white space, [main] runs the
    pipeline with the flag on and with the stripped text as key: the key is
    not empty, and stripping it again changes nothing. *)
Theorem typed_key_is_stored_stripped (script : string) (w : World)
    (g : generator) (w0 : World) (typed_line : string) (w1 : World) :
  new_generator "beanflow_output" w = (Ok g, w0) ->
  input prompt w0 = (Ok typed_line, w1) ->
  all_whitespace typed_line = false ->
  exists key,
    main script w = generate_video (set_pexels_api_key g key) script true w1
    /\ key = PyStr.strip typed_line
    /\ key_truthy (Some key) = true
    /\ PyStr.strip key = key.
Proof.
  intros Hnew Hinput Hgiven.
  exists (PyStr.strip typed_line).
  assert (Htruthy : PyStr.truthy (PyStr.strip typed_line) = true).
  { unfold PyStr.strip. pose proof (lstrip_head typed_line) as Hhead.
    destruct (PyStr.lstrip typed_line) as [| c t]; [congruence |].
    destruct Hhead as [Hc _]. destruct (rstrip_head c t Hc) as (r & ->).
    reflexivity. }
  split.
  - unfold main. rewrite (bind_ok _ _ _ _ _ Hnew), (bind_ok _ _ _ _ _ Hinput).
    rewrite Htruthy. reflexivity.
  - split; [reflexivity |]. split; [exact Htruthy | apply strip_idempotent].
Qed.

End Pipeline.

(** ** The greedy wrapper keeps the contract of [textwrap.fill] *)

Module ScenarioFacts.
Import Scenario.

Lemma split_free sep s : free_of sep s = true -> PyStr.split sep s = [s].
Proof.
  induction s as [| c s IH]; [reflexivity |]. cbn [free_of PyStr.split].
  intros H. apply andb_prop in H as [Hc Hs].
  apply negb_true_iff in Hc. rewrite Hc, (IH Hs). reflexivity.
Qed.

Lemma split_line sep a b :
  free_of sep a = true ->
  PyStr.split sep (a ++ String sep b) = a :: PyStr.split sep b.
Proof.
  induction a as [| c a IH]; cbn [free_of append PyStr.split].
  - intros _. rewrite Ascii.eqb_refl. reflexivity.
  - intros H. apply andb_prop in H as [Hc Ha].
    apply negb_true_iff in Hc. rewrite Hc, (IH Ha). reflexivity.
Qed.

Lemma split_join line lines :
  Forall (fun l => free_of newline l = true) (line :: lines) ->
  PyStr.split newline (PyStr.join nl (line :: lines)) = line :: lines.
Proof.
  revert line. induction lines as [| next lines IH]; intros line Hall.
  - cbn [PyStr.join]. apply split_free. now inversion Hall.
  - inversion Hall as [| ? ? Hline Hrest]; subst.
    change (PyStr.join nl (line :: next :: lines))
      with (line ++ String newline (PyStr.join nl (next :: lines))).
    rewrite (split_line _ _ _ Hline), (IH _ Hrest). reflexivity.
Qed.

Lemma spaceless_free s : spaceless s = true -> free_of newline s = true.
Proof.
  induction s as [| c s IH]; [reflexivity |]. cbn [spaceless free_of].
  intros H. apply andb_prop in H as [Hc Hs]. rewrite (IH Hs), andb_true_r.
  apply negb_true_iff. apply negb_true_iff in Hc.
  destruct (Ascii.eqb_spec c newline) as [-> |]; [discriminate | reflexivity].
Qed.

Lemma cons_head_spaceless c pieces :
  PyStr.isspace c = false ->
  Forall (fun p => spaceless p = true) pieces ->
  Forall (fun p => spaceless p = true) (cons_head c pieces).
Proof.
  intros Hc [| p rest Hp Hrest]; cbn [cons_head]; constructor;
    cbn [spaceless]; try rewrite Hc; auto.
Qed.

Lemma fields_spaceless text :
  Forall (fun p => spaceless p = true) (fields text).
Proof.
  induction text as [| c text IH]; cbn [fields].
  - repeat constructor.
  - destruct (PyStr.isspace c) eqn:Hc.
    + constructor; [reflexivity | exact IH].
    + apply cons_head_spaceless; assumption.
Qed.

Lemma words_spaceless text :
  Forall (fun p => spaceless p = true) (words text).
Proof.
  unfold words. apply Forall_forall. intros p Hin.
  apply filter_In in Hin as [Hin _].
  exact (proj1 (Forall_forall _ _) (fields_spaceless text) p Hin).
Qed.

(** Cutting a word: the piece under way has at most [room] characters
    and every later piece at most [width]. *)
Lemma chop_fits width word :
  (1 <= width)%nat -> spaceless word = true ->
  forall room, (room <= width)%nat ->
    match chop width room word with
    | [] => False
    | piece :: rest =>
        (free_of newline piece = true /\ (String.length piece <= room)%nat)
        /\ Forall (fits width) rest
    end.
Proof.
  intros Hwidth. induction word as [| c word IH]; intros Hword room Hroom.
  - cbn. repeat split; [lia | constructor].
  - cbn [spaceless] in Hword. apply andb_prop in Hword as [Hc Hword].
    assert (Hfree : negb (Ascii.eqb c newline) = true).
    { apply negb_true_iff. apply negb_true_iff in Hc.
      destruct (Ascii.eqb_spec c newline) as [-> |]; [discriminate | reflexivity]. }
    cbn [chop]. destruct room as [| room'].
    + specialize (IH Hword (Nat.pred width) ltac:(lia)).
      destruct (chop width (Nat.pred width) word) as [| piece rest];
        [contradiction |].
      destruct IH as [[Hp Hlen] Hrest]. cbn [cons_head].
      repeat split; [cbn; lia |].
      constructor; [| exact Hrest]. split.
      * cbn [free_of]. rewrite Hfree, Hp. reflexivity.
      * cbn [String.length]. lia.
    + specialize (IH Hword room' ltac:(lia)).
      destruct (chop width room' word) as [| piece rest]; [contradiction |].
      destruct IH as [[Hp Hlen] Hrest]. cbn [cons_head].
      repeat split; [| cbn [String.length]; lia | exact Hrest].
      cbn [free_of]. rewrite Hfree, Hp. reflexivity.
Qed.

Lemma chop_all_fit width word :
  (1 <= width)%nat -> spaceless word = true ->
  Forall (fits width) (chop width width word).
Proof.
  intros Hwidth Hword.
  pose proof (chop_fits width word Hwidth Hword width (le_n _)) as H.
  destruct (chop width width word) as [| piece rest]; [contradiction |].
  destruct H as [Hpiece Hrest]. constructor; assumption.
Qed.

Lemma free_of_append sep a b :
  free_of sep a = true -> free_of sep b = true -> free_of sep (a ++ b) = true.
Proof.
  induction a as [| c a IH]; cbn [append free_of]; [auto |].
  intros H Hb. apply andb_prop in H as [Hc Ha].
  rewrite Hc, (IH Ha Hb). reflexivity.
Qed.

Lemma length_append a b :
  String.length (a ++ b) = (String.length a + String.length b)%nat.
Proof. induction a as [| c a IH]; cbn; [| rewrite IH]; reflexivity. Qed.

Lemma pack_fits width pieces :
  Forall (fits width) pieces ->
  forall current, fits width current ->
    Forall (fits width) (pack width current pieces).
Proof.
  induction 1 as [| piece rest Hpiece _ IH]; intros current Hcurrent.
  - cbn. constructor; [exact Hcurrent | constructor].
  - cbn [pack].
    destruct (Nat.leb_spec (String.length current + 1 + String.length piece)
                width) as [Hroom | _].
    + apply IH. destruct Hcurrent as [Hc _], Hpiece as [Hp _]. split.
      * apply free_of_append; [exact Hc |].
        apply (free_of_append newline " " piece); [reflexivity | exact Hp].
      * rewrite !length_append. cbn [String.length]. lia.
    + constructor; [exact Hcurrent | apply IH; exact Hpiece].
Qed.

Lemma greedy_wrap_fits width text :
  (1 <= width)%nat -> Forall (fits width) (greedy_wrap width text).
Proof.
  intros Hwidth. unfold greedy_wrap.
  assert (Hall : Forall (fits width) (flat_map (chop width width) (words text))).
  { apply Forall_flat_map, Forall_forall. intros word Hin.
    apply chop_all_fit; [exact Hwidth |].
    exact (proj1 (Forall_forall _ _) (words_spaceless text) word Hin). }
  destruct (flat_map (chop width width) (words text)) as [| piece rest];
    [constructor |].
  inversion Hall; subst. apply pack_fits; assumption.
Qed.

Lemma greedy_fill_respects_width : fill_respects_width greedy_fill.
Proof.
  intros paragraph width line Hwidth. unfold greedy_fill.
  pose proof (greedy_wrap_fits (Z.to_nat width) paragraph ltac:(lia)) as Hall.
  destruct (greedy_wrap (Z.to_nat width) paragraph) as [| first rest].
  - cbn. intros [<- | []]. unfold PyStr.len. cbn. lia.
  - rewrite split_join.
    + intros Hin. destruct (proj1 (Forall_forall _ _) Hall line Hin) as [_ Hlen].
      unfold PyStr.len. lia.
    + eapply Forall_impl; [| exact Hall]. intros l [Hl _]. exact Hl.
Qed.

End ScenarioFacts.

(** ** The statements at work on concrete worlds *)

Section Runs.
Import Scenario ScenarioFacts.

(** *** Python strings and the program's constants *)

Example split_keeps_blank_pieces :
  PyStr.split newline ("a" ++ nl ++ nl ++ "b") = ["a"; ""; "b"].
Proof. reflexivity. Qed.

Example strip_trims_both_ends :
  PyStr.strip (String " " (String "009" "key 1  ")) = "key 1".
Proof. reflexivity. Qed.

Example title_cases_after_uncased :
  PyStr.title "they're 2nd-hand" = "They'Re 2Nd-Hand".
Proof. reflexivity. Qed.

(** The font sizes the program uses on its canvas of 1920 pixels: 70 for
    scenes, 60 for fallback slides, 20 after the font fallback. *)
Example program_font_sizes :
  map (chars_per_line 1720) [70; 60; 20]%Z = [Ok 40; Ok 47; Ok 143]%Z
  /\ map line_height_of [70; 60; 20]%Z = [105; 90; 30]%Z.
Proof. split; reflexivity. Qed.

(** *** Runs of the client and of one beat *)

(** A canvas too narrow to wrap on is refused by [textwrap]. *)
Example narrow_canvas_is_refused :
  fst (create_text_slide World fonts_missing bbox greedy_fill "Hello" 1
         (100, 40)%Z 60 default_color default_bg_color 0%nat)
  = Raise (ValueError "invalid width (must be > 0)").
Proof. reflexivity. Qed.

(** A full disk turns the download into [None]. *)
Example failed_write_is_none :
  download_video World (provider_up catalogue) disk_ok disk_full done_ok
    with_key "https://videos.example/hd.mp4" "clip_0.mp4" 1%nat
  = (Ok None, 5%nat).
Proof. reflexivity. Qed.

(** A clip of ten seconds in a beat of seven and a half is cut. *)
Example long_clip_is_trimmed :
  footage_segment World (provider_up catalogue) disk_ok write_ok done_ok
    fonts_missing bbox greedy_fill (lasts 10) with_key (60 / inject_Z 8)
    0 "coffee shop busy" 0%nat
  = (Ok (SubClip "beanflow_output/clip_0.mp4" 10 0 (60 / inject_Z 8)), 7%nat).
Proof. reflexivity. Qed.

(** A download that breaks leaves the beat its title-case slide. *)
Example broken_download_falls_back :
  exists s w',
    footage_segment World (provider_search_only catalogue) disk_ok write_ok
      done_ok fonts_missing bbox greedy_fill (lasts 5) with_key
      (60 / inject_Z 8) 0 "coffee shop busy" 0%nat = (Ok (SlideClip s), w')
    /\ map op_line (slide_ops s) = ["Coffee Shop Busy"].
Proof. eexists _, _. split; vm_compute; reflexivity. Qed.

(** A chosen variant without a link is not caught: the beat raises. *)
Example missing_link_raises :
  fst (footage_segment World (provider_up unlinked) disk_ok write_ok done_ok
         fonts_missing bbox greedy_fill (lasts 5) with_key (60 / inject_Z 8)
         0 "coffee shop busy" 0%nat)
  = Raise (KeyError "link").
Proof. reflexivity. Qed.

(** *** The statements applied *)

(** A machine without the macOS fonts, audio of one minute: the twelve
    slides add up to the minute. *)
Lemma slide_only_scaling_run :
  exists v w',
    create_video_without_pexels World fonts_missing bbox greedy_fill (lasts 60)
      no_key "beanflow_output/audio.mp3" "narration" 0%nat = (Ok v, w')
    /\ List.length (video_track v) = 12%nat
    /\ track_duration (video_track v) == 60.
Proof.
  destruct (slide_only_scaling World fonts_missing bbox greedy_fill (lasts 60)
              no_key "beanflow_output/audio.mp3" "narration" 0%nat 60 1%nat
              eq_refl)
    as (v & w' & Hrun & Hlen & _ & _ & Hall & _ & Hsum).
  exists v, w'. split; [exact Hrun |]. split; [| exact Hsum].
  rewrite <- (Forall2_length Hall). exact Hlen.
Defined.

Lemma catalogue_links_present :
  links_present World (provider_up catalogue) with_key.
Proof.
  intros query w first others w' files v Hsearch Hfiles Hselect.
  vm_compute in Hsearch. injection Hsearch as <- _ _.
  cbn in Hfiles. injection Hfiles as <-.
  vm_compute in Hselect. injection Hselect as <-.
  eexists. reflexivity.
Qed.

Lemma media_open seconds : clips_open World (lasts seconds).
Proof. intros path w. exists seconds, (S w). reflexivity. Qed.

(** The provider answers, the files are served and last five seconds,
    the audio lasts a minute: eight segments of seven and a half seconds. *)
Lemma footage_track_shares_audio_run :
  exists v w',
    create_video_with_pexels World (provider_up catalogue) disk_ok write_ok
      done_ok fonts_missing bbox greedy_fill (lasts 60) (lasts 5) with_key
      "beanflow_output/audio.mp3" "narration" 0%nat = (Ok v, w')
    /\ List.length (video_track v) = 8%nat
    /\ Forall (fun c => seg_duration c == 60 / inject_Z 8) (video_track v)
    /\ track_duration (video_track v) == 60.
Proof.
  destruct (footage_track_shares_audio World (provider_up catalogue) disk_ok
              write_ok done_ok fonts_missing bbox greedy_fill (lasts 60)
              (lasts 5) with_key "beanflow_output/audio.mp3" "narration"
              0%nat 60 1%nat eq_refl)
    as (Height & Hshape & Hreturns).
  destruct (Hreturns catalogue_links_present (media_open 5))
    as (v & w' & Hrun).
  destruct (Hshape v w' Hrun) as (_ & Hlen & Hall & Hsum).
  exists v, w'. split; [exact Hrun |].
  split; [rewrite Hlen; exact Height |]. split; assumption.
Defined.

(** A clip of five seconds in a beat of seven and a half is looped. *)
Lemma downloaded_clip_is_fitted_run :
  exists clip,
    footage_segment World (provider_up catalogue) disk_ok write_ok done_ok
      fonts_missing bbox greedy_fill (lasts 5) with_key (60 / inject_Z 8)
      0 "coffee shop busy" 0%nat = (Ok clip, 7%nat)
    /\ clip = LoopClip "beanflow_output/clip_0.mp4" 5 (60 / inject_Z 8)
    /\ seg_duration clip == 60 / inject_Z 8.
Proof.
  destruct (downloaded_clip_is_fitted World (provider_up catalogue) disk_ok
              write_ok done_ok fonts_missing bbox greedy_fill (lasts 5)
              with_key (60 / inject_Z 8) 0 "coffee shop busy" 0%nat
              {| video_files := Some [sd_file; hd_file] |} [] 1%nat
              [sd_file; hd_file] hd_file "https://videos.example/hd.mp4"
              "beanflow_output/clip_0.mp4" 6%nat 5 7%nat
              eq_refl eq_refl eq_refl eq_refl eq_refl eq_refl)
    as (clip & Hrun & Hloop & _ & Hd).
  exists clip. split; [exact Hrun |]. split; [| exact Hd].
  apply Hloop. reflexivity.
Defined.

Lemma refused_everywhere i query w :
  exists w', footage_unavailable World (provider_refuses) disk_ok write_ok
               done_ok with_key i query w w'.
Proof. exists (S w). apply search_empty. reflexivity. Qed.

(** The provider refuses the credential: eight fallback slides. *)
Lemma unavailable_footage_falls_back_run :
  exists v w',
    create_video_with_pexels World provider_refuses disk_ok write_ok done_ok
      fonts_missing bbox greedy_fill (lasts 60) (lasts 5) with_key
      "beanflow_output/audio.mp3" "narration" 0%nat = (Ok v, w')
    /\ List.length (video_track v) = 8%nat
    /\ Forall2 (fun query clip =>
                  fallback_of World fonts_missing bbox greedy_fill query
                    (60 / inject_Z 8) clip)
         queries (video_track v).
Proof.
  destruct (unavailable_footage_falls_back World provider_refuses disk_ok
              write_ok done_ok fonts_missing bbox greedy_fill (lasts 60)
              (lasts 5) with_key) as (_ & Hall & _).
  exact (Hall "beanflow_output/audio.mp3" "narration" 0%nat 60 1%nat eq_refl
           refused_everywhere).
Defined.

(** Nothing typed at the prompt: the pipeline runs without the flag. *)
Lemma strategy_selection_run :
  main World (provider_up catalogue) disk_ok write_ok done_ok fonts_missing
    bbox greedy_fill done_ok (fun _ _ => step (Ok tt)) (lasts 60) (lasts 5)
    (fun _ _ => step (Ok tt)) (typed "  ") "narration" 0%nat
  = generate_video World (provider_up catalogue) disk_ok write_ok done_ok
      fonts_missing bbox greedy_fill (fun _ _ => step (Ok tt)) (lasts 60)
      (lasts 5) (fun _ _ => step (Ok tt)) no_key "narration" false 2%nat.
Proof.
  destruct (strategy_selection World (provider_up catalogue) disk_ok write_ok
              done_ok fonts_missing bbox greedy_fill done_ok
              (fun _ _ => step (Ok tt)) (lasts 60) (lasts 5)
              (fun _ _ => step (Ok tt)) (typed "  "))
    as (_ & _ & _ & Hmain).
  destruct (Hmain "narration" 0%nat no_key 1%nat "  " 2%nat eq_refl eq_refl)
    as [Hskip _].
  exact (proj1 (Hskip eq_refl)).
Defined.

(** An unreachable provider: the search gives the empty list and the
    download gives [None]. *)
Lemma client_failures_are_values_run :
  search_pexels_videos World provider_down with_key "coffee shop busy" 3 0%nat
  = (Ok [], 1%nat)
  /\ download_video World provider_down disk_ok write_ok done_ok with_key
       "https://videos.example/hd.mp4" "clip_0.mp4" 0%nat
     = (Ok None, 1%nat).
Proof.
  destruct (client_failures_are_values World provider_down disk_ok write_ok
              done_ok)
    as (_ & _ & Hsearch & _ & _ & Hdown & _).
  split.
  - exact (Hsearch with_key "secret" "coffee shop busy" 3%Z 0%nat
             RequestException 1%nat eq_refl eq_refl eq_refl).
  - exact (Hdown with_key "https://videos.example/hd.mp4" "clip_0.mp4" 0%nat
             RequestException 1%nat eq_refl).
Defined.

(** The fallback font, size 20, wraps at 143 characters on the default
    canvas: three lines, the middle one blank, 30 pixels apart. *)
Lemma slide_line_layout_run :
  exists s,
    create_text_slide World fonts_missing bbox greedy_fill
      ("Hello" ++ nl ++ nl ++ "World") 1 (1920, 1080)%Z 70 default_color
      default_bg_color 0%nat = (Ok s, 2%nat)
    /\ map op_line (slide_ops s) = ["Hello"; ""; "World"]
    /\ map op_y (slide_ops s) = [495; 525; 555]%Z.
Proof.
  destruct (slide_line_layout World fonts_missing bbox greedy_fill
              ("Hello" ++ nl ++ nl ++ "World") 1 1920 1080 70 default_color
              default_bg_color 0%nat DefaultFont 20 2%nat 143
              greedy_fill_respects_width eq_refl eq_refl eq_refl)
    as (_ & _ & _ & _ & s & Hrun & _ & _ & Hlines & Hops).
  exists s. split; [exact Hrun |]. split; [exact Hlines |].
  destruct (slide_ops s) as [| op1 [| op2 [| op3 [| op4 rest]]]];
    try discriminate Hlines.
  destruct (Hops 0%nat op1 eq_refl) as (Hy1 & _).
  destruct (Hops 1%nat op2 eq_refl) as (Hy2 & _).
  destruct (Hops 2%nat op3 eq_refl) as (Hy3 & _).
  cbn [map]. rewrite Hy1, Hy2, Hy3. reflexivity.
Defined.

(** Neither font file loads: the built-in font at size 20. *)
Lemma font_resolution_total_run :
  resolve_font World fonts_missing 70 0%nat = (Ok (DefaultFont, 20%Z), 2%nat).
Proof.
  destruct (font_resolution_total World fonts_missing bbox greedy_fill 70 0%nat)
    as (f & size & w' & Hres & Hfallback & _).
  destruct (Hfallback OSError 1%nat OSError 2%nat eq_refl eq_refl)
    as (-> & -> & ->).
  exact Hres.
Defined.

(** The first result has no file variants, the second has one: the beat
    still gets the fallback slide. *)
Lemma only_first_result_is_examined_run :
  exists s w',
    footage_segment World (provider_up bare_first) disk_ok write_ok done_ok
      fonts_missing bbox greedy_fill (lasts 5) with_key (60 / inject_Z 8)
      0 "coffee shop busy" 0%nat = (Ok (SlideClip s), w')
    /\ slide_duration s = 60 / inject_Z 8.
Proof.
  destruct (only_first_result_is_examined World (provider_up bare_first)
              disk_ok write_ok done_ok fonts_missing bbox greedy_fill
              (lasts 5) with_key (60 / inject_Z 8) 0 "coffee shop busy"
              0%nat {| video_files := None |}
              [{| video_files := Some [hd_file] |}] 1%nat eq_refl eq_refl)
    as (s & w' & Hrun & _ & Hd).
  exists s, w'. split; assumption.
Defined.

(** *** Where the specification and the program part *)

(** C5 as stated does not hold: with the flag set and no key configured
    the composer builds the twelve scene slides of slide-only mode, not
    the eight segments of footage mode. *)
Lemma flag_without_key_is_slide_only :
  compose_video World (provider_up catalogue) disk_ok write_ok done_ok
    fonts_missing bbox greedy_fill (lasts 60) (lasts 5) no_key
    "beanflow_output/audio.mp3" "narration" true 0%nat
  = create_video_without_pexels World fonts_missing bbox greedy_fill
      (lasts 60) no_key "beanflow_output/audio.mp3" "narration" 0%nat
  /\ compose_video World (provider_up catalogue) disk_ok write_ok done_ok
       fonts_missing bbox greedy_fill (lasts 60) (lasts 5) no_key
       "beanflow_output/audio.mp3" "narration" true 0%nat
     <> create_video_with_pexels World (provider_up catalogue) disk_ok
          write_ok done_ok fonts_missing bbox greedy_fill (lasts 60)
          (lasts 5) no_key "beanflow_output/audio.mp3" "narration" 0%nat.
Proof.
  split; [reflexivity |].
  intros Heq.
  apply (f_equal (fun run => match fst run with
                             | Ok v => List.length (video_track v)
                             | Raise _ => 0%nat
                             end)) in Heq.
  vm_compute in Heq. discriminate Heq.
Qed.

(** C8 as stated does not hold for the line height: at font size 61 two
    consecutive lines are 91 pixels apart, which is not 61 * 1.5. *)
Lemma odd_font_size_line_height :
  exists s w' op1 op2,
    create_text_slide World fonts_installed bbox greedy_fill
      ("a" ++ nl ++ "b") 1 (1920, 1080)%Z 61 default_color default_bg_color
      0%nat = (Ok s, w')
    /\ slide_ops s = [op1; op2]
    /\ (op_y op2 - op_y op1)%Z = 91%Z
    /\ ~ inject_Z (op_y op2 - op_y op1) == inject_Z 61 * (3 # 2).
Proof.
  eexists _, _, _, _. split; [vm_compute; reflexivity |].
  split; [reflexivity |]. split; [reflexivity |].
  cbn [op_y]. intros Heq. vm_compute in Heq. discriminate Heq.
Qed.

End Runs.

(** ** Footage mode without a key *)


(** ** The further statements at work on concrete worlds *)

Section MoreRuns.
Import Scenario ScenarioFacts.

Lemma disk_open_truncates : open_truncates Disk disk_open disk_content.
Proof.
  intros path d d'. unfold disk_open. intros [= <-].
  cbn [disk_content]. rewrite String.eqb_refl. reflexivity.
Qed.

Lemma disk_write_appends : write_appends Disk disk_write disk_content.
Proof.
  intros path c d d' bytes. unfold disk_write. intros Hw Hc.
  rewrite Hc in Hw. injection Hw as <-.
  cbn [disk_content]. rewrite String.eqb_refl. reflexivity.
Qed.

Lemma disk_close_keeps : close_keeps_content Disk disk_close disk_content.
Proof. intros path d r d'. unfold disk_close. intros [= _ <-]. reflexivity. Qed.

(** The provider's listing comes back as it was sent. *)
Lemma search_returns_provider_list_run :
  search_pexels_videos World (provider_up catalogue) with_key
    "coffee shop busy" 3 0%nat = (Ok catalogue, 1%nat).
Proof.
  exact (search_returns_provider_list World (provider_up catalogue) with_key
           "secret" "coffee shop busy" 3 0%nat (listing catalogue) 1%nat
           (Some catalogue) eq_refl eq_refl eq_refl eq_refl eq_refl).
Defined.

(** Three bytes served in two chunks are three bytes on the disk. *)
Lemma download_stores_the_body_run :
  exists d',
    download_video Disk (serves whole_body) disk_open disk_write disk_close
      with_key "https://videos.example/hd.mp4" "clip_0.mp4" []
    = (Ok (Some "beanflow_output/clip_0.mp4"), d')
    /\ disk_content d' "beanflow_output/clip_0.mp4"
       = Some [Byte.x00; Byte.x01; Byte.x02].
Proof.
  eexists. split; [reflexivity |].
  destruct (download_stores_the_body Disk (serves whole_body) disk_open
              disk_write disk_close disk_content with_key
              "https://videos.example/hd.mp4" "clip_0.mp4" [] whole_body []
              "beanflow_output/clip_0.mp4" _
              disk_open_truncates disk_write_appends disk_close_keeps
              eq_refl eq_refl)
    as (cs & Hcs & _ & Hcontent).
  cbn [whole_body body_chunks] in Hcs.
  destruct cs as [| c1 [| c2 [| c3 cs]]]; try discriminate Hcs.
  injection Hcs as <- <-. exact Hcontent.
Defined.

(** The stream breaks after the first chunk: [None], and two bytes stay
    on the disk. *)
Lemma broken_stream_leaves_partial_file_run :
  exists d',
    download_video Disk (serves broken_body) disk_open disk_write disk_close
      with_key "https://videos.example/hd.mp4" "clip_0.mp4" [] = (Ok None, d')
    /\ disk_content d' "beanflow_output/clip_0.mp4"
       = Some [Byte.x00; Byte.x01].
Proof.
  exact (broken_stream_leaves_partial_file Disk (serves broken_body) disk_open
           disk_write disk_close disk_content with_key
           "https://videos.example/hd.mp4" "clip_0.mp4" [] broken_body [] _ _
           [[Byte.x00; Byte.x01]] RequestException [Ok [Byte.x02]]
           disk_open_truncates disk_write_appends disk_close_keeps
           eq_refl eq_refl eq_refl eq_refl eq_refl).
Defined.

(** A full disk: the writes fail after the open, the file is closed all
    the same and the result is [None]. *)
Lemma download_always_closes_run :
  download_video World (provider_up catalogue) disk_ok disk_full done_ok
    with_key "https://videos.example/hd.mp4" "clip_0.mp4" 0%nat
  = (Ok None, 4%nat).
Proof.
  destruct (download_always_closes World (provider_up catalogue) disk_ok
              disk_full done_ok with_key "https://videos.example/hd.mp4"
              "clip_0.mp4" 0%nat file_body 1%nat 2%nat (Raise OSError) 3%nat
              eq_refl eq_refl eq_refl eq_refl) as [Hworld Hresult].
  rewrite (surjective_pairing (download_video _ _ _ _ _ _ _ _ _)).
  rewrite Hworld, Hresult. reflexivity.
Defined.



(** A canvas of 100 pixels leaves a negative width for the text. *)
Lemma layout_failure_characterised_run :
  Exists nonblank (PyStr.split newline "Hello")
  /\ chars_per_line (100 - 200) 20 = Ok (-8)%Z.
Proof.
  destruct (proj1 (layout_failure_characterised bbox greedy_fill DefaultFont 20
                     "Hello" 1 100 40 default_color default_bg_color
                     (ValueError "invalid width (must be > 0)"))
                  eq_refl) as [Hex _].
  split; [exact Hex | reflexivity].
Defined.

(** Three lines of height 30 on the default canvas stay on it. *)
Lemma lines_on_the_canvas_run :
  exists s,
    layout_slide bbox greedy_fill DefaultFont 20
      ("Hello" ++ nl ++ nl ++ "World") 1 (1920, 1080)%Z default_color
      default_bg_color = Ok s
    /\ forall i op,
        nth_error (slide_ops s) i = Some op ->
        (0 <= op_y op /\ op_y op + 30 <= 1080)%Z.
Proof.
  eexists. split; [reflexivity |]. intros i op Hnth.
  destruct (lines_on_the_canvas bbox greedy_fill DefaultFont 20
              ("Hello" ++ nl ++ nl ++ "World") 1 1920 1080 default_color
              default_bg_color _ eq_refl ltac:(lia)) as [Hlines _].
  destruct (Hlines i op Hnth) as [Hy _]. apply Hy. vm_compute. discriminate.
Defined.


(** Audio that cannot be opened stops slide-only mode. *)
Lemma slide_only_fails_only_on_audio_run :
  create_video_without_pexels World fonts_missing bbox greedy_fill
    (fun _ => step (Raise OSError)) no_key "beanflow_output/audio.mp3"
    "narration" 0%nat = (Raise OSError, 1%nat).
Proof.
  exact (proj2 (slide_only_fails_only_on_audio World fonts_missing bbox
                  greedy_fill (fun _ => step (Raise OSError)) no_key
                  "beanflow_output/audio.mp3" "narration" 0%nat OSError 1%nat)
               eq_refl).
Defined.

(** A minute of audio in footage mode: eight segments that last the
    minute. *)
Lemma composed_track_matches_audio_run :
  exists v w',
    compose_video World (provider_up catalogue) disk_ok write_ok done_ok
      fonts_missing bbox greedy_fill (lasts 60) (lasts 5) with_key
      "beanflow_output/audio.mp3" "narration" true 0%nat = (Ok v, w')
    /\ track_duration (video_track v) == audio_duration (video_audio v)
    /\ List.length (video_track v) = 8%nat.
Proof.
  destruct (compose_video World (provider_up catalogue) disk_ok write_ok
              done_ok fonts_missing bbox greedy_fill (lasts 60) (lasts 5)
              with_key "beanflow_output/audio.mp3" "narration" true 0%nat)
    as [[v | e] w'] eqn:Hrun.
  - exists v, w'. split; [reflexivity |].
    destruct (composed_track_matches_audio World (provider_up catalogue)
                disk_ok write_ok done_ok fonts_missing bbox greedy_fill
                (lasts 60) (lasts 5) with_key "beanflow_output/audio.mp3"
                "narration" true 0%nat v w' Hrun) as (_ & _ & Hsum & Hlen).
    split; [exact Hsum | exact Hlen].
  - exfalso. vm_compute in Hrun. discriminate Hrun.
Defined.

(** A minute of audio in slide-only mode: twelve slides, each held for a
    positive time. *)
Lemma segments_last_positive_time_run :
  exists v w',
    compose_video World (provider_up catalogue) disk_ok write_ok done_ok
      fonts_missing bbox greedy_fill (lasts 60) (lasts 5) no_key
      "beanflow_output/audio.mp3" "narration" false 0%nat = (Ok v, w')
    /\ Forall (fun c => 0 < seg_duration c) (video_track v).
Proof.
  destruct (compose_video World (provider_up catalogue) disk_ok write_ok
              done_ok fonts_missing bbox greedy_fill (lasts 60) (lasts 5)
              no_key "beanflow_output/audio.mp3" "narration" false 0%nat)
    as [[v | e] w'] eqn:Hrun.
  - exists v, w'. split; [reflexivity |].
    apply (segments_last_positive_time World (provider_up catalogue)
             disk_ok write_ok done_ok fonts_missing bbox greedy_fill
             (lasts 60) (lasts 5) no_key "beanflow_output/audio.mp3"
             "narration" false 0%nat v w' Hrun).
    assert (Haudio : audio_duration (video_audio v) = 60).
    { vm_compute in Hrun. injection Hrun as <- _. reflexivity. }
    rewrite Haudio. reflexivity.
  - exfalso. vm_compute in Hrun. discriminate Hrun.
Defined.

(** Beat 3 plays [clip_3.mp4], which is not the file of beat 4. *)
Lemma beats_use_their_own_files_run :
  "beanflow_output/clip_3.mp4"
  = path_join (output_dir with_key) ("clip_" ++ PyStr.of_nat 3 ++ ".mp4")
  /\ path_join "beanflow_output" ("clip_" ++ PyStr.of_nat 3 ++ ".mp4")
     <> path_join "beanflow_output" ("clip_" ++ PyStr.of_nat 4 ++ ".mp4").
Proof.
  destruct (beats_use_their_own_files World (provider_up catalogue) disk_ok
              write_ok done_ok fonts_missing bbox greedy_fill (lasts 5))
    as [Hown Hdistinct].
  split.
  - exact (Hown with_key (60 / inject_Z 8) 3%nat "mobile phone ordering" 0%nat
             (LoopClip "beanflow_output/clip_3.mp4" 5 (60 / inject_Z 8)) 7%nat
             "beanflow_output/clip_3.mp4" eq_refl eq_refl).
  - intros Heq. apply Hdistinct in Heq. discriminate Heq.
Defined.

(** The synthesis fails: the run fails with it after one call. *)
Lemma generate_video_exports_or_fails_run :
  generate_video World (provider_up catalogue) disk_ok write_ok done_ok
    fonts_missing bbox greedy_fill (fun _ _ => step (Raise RequestException))
    (lasts 60) (lasts 5) (fun _ _ => step (Ok tt)) no_key "narration" false
    0%nat
  = (Raise RequestException, 1%nat).
Proof.
  destruct (generate_video_exports_or_fails World (provider_up catalogue)
              disk_ok write_ok done_ok fonts_missing bbox greedy_fill
              (fun _ _ => step (Raise RequestException)) (lasts 60) (lasts 5)
              (fun _ _ => step (Ok tt)) no_key "narration" false 0%nat)
    as [Hfail _].
  exact (Hfail RequestException 1%nat eq_refl).
Defined.

(** Two spaces and a tab at the prompt: no key, flag off. *)
Lemma blank_credential_is_omitted_run :
  main World (provider_up catalogue) disk_ok write_ok done_ok fonts_missing
    bbox greedy_fill done_ok (fun _ _ => step (Ok tt)) (lasts 60) (lasts 5)
    (fun _ _ => step (Ok tt)) (typed (String " " (String " " (String "009" "")))) "narration" 0%nat
  = generate_video World (provider_up catalogue) disk_ok write_ok done_ok
      fonts_missing bbox greedy_fill (fun _ _ => step (Ok tt)) (lasts 60)
      (lasts 5) (fun _ _ => step (Ok tt)) no_key "narration" false 2%nat.
Proof.
  exact (proj2 (blank_credential_is_omitted World (provider_up catalogue)
                  disk_ok write_ok done_ok fonts_missing bbox greedy_fill
                  done_ok (fun _ _ => step (Ok tt)) (lasts 60) (lasts 5)
                  (fun _ _ => step (Ok tt))
                  (typed (String " " (String " " (String "009" ""))))
                  "narration" 0%nat no_key 1%nat
                  (String " " (String " " (String "009" ""))) 2%nat
                  eq_refl eq_refl eq_refl)).
Defined.

(** A key typed between spaces is stored without them. *)
Lemma typed_key_is_stored_stripped_run :
  main World (provider_up catalogue) disk_ok write_ok done_ok fonts_missing
    bbox greedy_fill done_ok (fun _ _ => step (Ok tt)) (lasts 60) (lasts 5)
    (fun _ _ => step (Ok tt)) (typed "  secret ") "narration" 0%nat
  = generate_video World (provider_up catalogue) disk_ok write_ok done_ok
      fonts_missing bbox greedy_fill (fun _ _ => step (Ok tt)) (lasts 60)
      (lasts 5) (fun _ _ => step (Ok tt)) with_key "narration" true 2%nat.
Proof.
  destruct (typed_key_is_stored_stripped World (provider_up catalogue)
              disk_ok write_ok done_ok fonts_missing bbox greedy_fill
              done_ok (fun _ _ => step (Ok tt)) (lasts 60) (lasts 5)
              (fun _ _ => step (Ok tt)) (typed "  secret ") "narration" 0%nat
              no_key 1%nat "  secret " 2%nat eq_refl eq_refl eq_refl)
    as (key & Hmain & -> & _).
  exact Hmain.
Defined.


End MoreRuns.
